(** * Danmaku parameter codec, statistics fallback, duplicate grouping and
      density ranking: a shallow embedding of the Python sources

    Sources embedded here:
    - [src/database/repositories/danmaku_parser.py]
        ([DanmakuParamsParser], [EnhancedCommentStatistics]);
    - [src/services/episode.py]
        ([DanmakuService.cleanup_duplicate_danmaku] and its similarity helpers);
    - [src/database/repositories/episode.py]
        ([CommentRepository.get_popular_danmaku]).

    Conventions.  A Python [str] is a Rocq [string] whose characters are code
    points below 256.  A Python [int] is a [Z].  A Python [dict] is a stdpp
    [gmap].  Exceptions are values of an error type threaded through a small
    monad.  Quantities the sources compute in binary floating point are kept
    as exact rationals ([Q]); rounding is not modelled. *)

From Stdlib Require Import ZArith NArith QArith Qabs Qminmax Lia Lqa Ascii String.
From stdpp Require Import gmap strings list sorting.

Local Open Scope Z_scope.
Local Open Scope string_scope.

(** [set_solver] clears hypotheses that need not exist. *)
Set Warnings "-clear-no-such-hyp".

(** ** Python values and exceptions *)

(** The exceptions the embedded code can raise or catch. *)
Inductive pyexn : Type :=
| ValueError
| IndexError
| DatabaseError (msg : string).

(** Outcome of a Python expression: a value, or a raised exception. *)
Inductive res (A : Type) : Type :=
| Return (a : A)
| Raise (e : pyexn).
Arguments Return {A} a.
Arguments Raise {A} e.

Definition res_bind {A B} (m : res A) (k : A -> res B) : res B :=
  match m with
  | Return a => k a
  | Raise e => Raise e
  end.

(** stdpp's [x ← m; k] notation for sequencing. *)
#[global] Instance res_mbind : MBind res := fun A B k m => res_bind m k.
#[global] Instance res_mret : MRet res := fun A a => Return a.

Definition raised {A} (m : res A) : Prop :=
  match m with Raise _ => True | Return _ => False end.

Definition returned {A} (m : res A) : Prop :=
  match m with Return _ => True | Raise _ => False end.

(** [float(s)] keeps the decimal literal it read: sign, digits and power of
    ten, or one of the two non-numeric values. *)
Inductive pyfloat : Type :=
| FNan
| FInf (negative : bool)
| FDec (negative : bool) (mantissa : N) (exp10 : Z).

(** Values stored in the dictionaries built by the parser. *)
Inductive pyval : Type :=
| VFloat (f : pyfloat)
| VInt (z : Z)
| VStr (s : string).

(** ** Characters *)

Module Chars.

Definition code (c : ascii) : N := N_of_ascii c.

(** Whitespace skipped by [int()] and [float()] around the literal:
    TAB, LF, VT, FF, CR, SPACE, and U+0085, U+00A0. *)
Definition is_space (c : ascii) : bool :=
  let n := code c in
  (((9 <=? n) && (n <=? 13)) || (n =? 32) || (n =? 133) || (n =? 160))%N.

Definition is_digit (c : ascii) : bool :=
  let n := code c in ((48 <=? n) && (n <=? 57))%N.

Definition digit_value (c : ascii) : N := (code c - 48)%N.

Definition is_underscore (c : ascii) : bool := (code c =? 95)%N.
Definition is_comma (c : ascii) : bool := (code c =? 44)%N.
Definition is_plus (c : ascii) : bool := (code c =? 43)%N.
Definition is_minus (c : ascii) : bool := (code c =? 45)%N.
Definition is_dot (c : ascii) : bool := (code c =? 46)%N.
Definition is_exp (c : ascii) : bool := ((code c =? 101) || (code c =? 69))%N.

(** ASCII lower-casing, used for the case-insensitive [inf] and [nan]. *)
Definition lower (c : ascii) : ascii :=
  let n := code c in
  if ((65 <=? n) && (n <=? 90))%N then ascii_of_N (n + 32) else c.

End Chars.

(** ** Built-in string functions used by the parser *)

Module Builtins.
Import Chars.

(** [s.split(',')]: every comma separates; the result is never empty. *)
Fixpoint split_chars (l : list ascii) : list (list ascii) :=
  match l with
  | [] => [[]]
  | c :: r =>
      if is_comma c then [] :: split_chars r
      else match split_chars r with
           | h :: t => (c :: h) :: t
           | [] => [[c]]
           end
  end.

Definition split (s : string) : list string :=
  map string_of_list_ascii (split_chars (list_ascii_of_string s)).

Fixpoint lstrip (l : list ascii) : list ascii :=
  match l with
  | c :: r => if is_space c then lstrip r else l
  | [] => []
  end.

Definition strip (l : list ascii) : list ascii :=
  rev (lstrip (rev (lstrip l))).

(** A run of decimal digits read left to right into an accumulator. *)
Fixpoint digits_value (acc : N) (l : list ascii) : N :=
  match l with
  | [] => acc
  | c :: r => digits_value (10 * acc + digit_value c)%N r
  end.

(** Remaining characters of an integer literal once a digit has been read:
    digits, each optionally preceded by one underscore. *)
Fixpoint int_tail (acc : N) (l : list ascii) : option N :=
  match l with
  | [] => Some acc
  | c :: r =>
      if is_digit c then int_tail (10 * acc + digit_value c)%N r
      else if is_underscore c then
        match r with
        | c' :: r' =>
            if is_digit c' then int_tail (10 * acc + digit_value c')%N r'
            else None
        | [] => None
        end
      else None
  end.

Definition int_digits (l : list ascii) : option N :=
  match l with
  | c :: r => if is_digit c then int_tail (digit_value c) r else None
  | [] => None
  end.

(** Optional sign in front of a literal. *)
Definition take_sign (l : list ascii) : bool * list ascii :=
  match l with
  | c :: r =>
      if is_minus c then (true, r)
      else if is_plus c then (false, r)
      else (false, l)
  | [] => (false, [])
  end.

(** [int(s)] for a [str] argument, base 10.  The interpreter's limit on the
    number of digits of the literal is not modelled. *)
Definition py_int (s : string) : res Z :=
  let (neg, body) := take_sign (strip (list_ascii_of_string s)) in
  match int_digits body with
  | Some n => Return (if neg then - Z.of_N n else Z.of_N n)
  | None => Raise ValueError
  end.

(** Underscore removal performed by [float()] before the numeric scan:
    an underscore must stand between two digits. *)
Fixpoint drop_underscores (prev : option ascii) (l : list ascii)
  : option (list ascii) :=
  match l with
  | [] =>
      match prev with
      | Some p => if is_underscore p then None else Some []
      | None => Some []
      end
  | c :: r =>
      if is_underscore c then
        match prev with
        | Some p => if is_digit p then drop_underscores (Some c) r else None
        | None => None
        end
      else
        let bad :=
          match prev with
          | Some p => is_underscore p && negb (is_digit c)
          | None => false
          end in
        if bad then None
        else option_map (cons c) (drop_underscores (Some c) r)
  end.

(** Longest prefix of digits and what follows it. *)
Fixpoint span_digits (l : list ascii) : list ascii * list ascii :=
  match l with
  | c :: r =>
      if is_digit c then let (d, rest) := span_digits r in (c :: d, rest)
      else ([], l)
  | [] => ([], [])
  end.

(** Exponent part: empty, or [e] or [E], an optional sign, one digit or more. *)
Definition exponent (l : list ascii) : option Z :=
  match l with
  | [] => Some 0
  | c :: r =>
      if is_exp c then
        let (neg, body) := take_sign r in
        match span_digits body with
        | ((_ :: _) as d, []) =>
            let e := Z.of_N (digits_value 0 d) in
            Some (if neg then - e else e)
        | _ => None
        end
      else None
  end.

(** Decimal literal without sign: digits, optional point and digits, at
    least one digit in all, optional exponent. *)
Definition decimal (neg : bool) (l : list ascii) : option pyfloat :=
  let (ipart, rest) := span_digits l in
  let (fpart, rest') :=
    match rest with
    | c :: r => if is_dot c then span_digits r else ([], rest)
    | [] => ([], [])
    end in
  match (ipart ++ fpart)%list with
  | [] => None
  | ds =>
      match exponent rest' with
      | Some e =>
          Some (FDec neg (digits_value 0 ds) (e - Z.of_nat (length fpart)))
      | None => None
      end
  end.

Definition special (neg : bool) (l : list ascii) : option pyfloat :=
  let w := string_of_list_ascii (map lower l) in
  if String.eqb w "inf" || String.eqb w "infinity" then Some (FInf neg)
  else if String.eqb w "nan" then Some FNan
  else None.

(** [float(s)] for a [str] argument. *)
Definition py_float (s : string) : res pyfloat :=
  match drop_underscores None (strip (list_ascii_of_string s)) with
  | Some l =>
      let (neg, body) := take_sign l in
      match special neg body with
      | Some f => Return f
      | None =>
          match decimal neg body with
          | Some f => Return f
          | None => Raise ValueError
          end
      end
  | None => Raise ValueError
  end.

(** [parts[i]] *)
Definition getitem (parts : list string) (i : nat) : res string :=
  match parts !! i with
  | Some p => Return p
  | None => Raise IndexError
  end.

End Builtins.

(** ** [DanmakuParamsParser] (danmaku_parser.py) *)

Module DanmakuParamsParser.
Import Builtins.

(** The dictionary literal returned on success. *)
Definition params_dict (time : pyfloat) (mode font_size color timestamp pool : Z)
    (danmaku_id user_hash : string) : gmap string pyval :=
  <["time" := VFloat time]>
  (<["mode" := VInt mode]>
  (<["font_size" := VInt font_size]>
  (<["color" := VInt color]>
  (<["timestamp" := VInt timestamp]>
  (<["pool" := VInt pool]>
  (<["danmaku_id" := VStr danmaku_id]>
  (<["user_hash" := VStr user_hash]> ∅))))))).

(** Body of the [if len(parts) >= 8:] branch: the entries are evaluated in
    the order they are written, the first exception aborts the rest. *)
Definition build (parts : list string) : res (gmap string pyval) :=
  p0 ← getitem parts 0; time ← py_float p0;
  p1 ← getitem parts 1; mode ← py_int p1;
  p2 ← getitem parts 2; font_size ← py_int p2;
  p3 ← getitem parts 3; color ← py_int p3;
  p4 ← getitem parts 4; timestamp ← py_int p4;
  p5 ← getitem parts 5; pool ← py_int p5;
  danmaku_id ← getitem parts 6;
  user_hash ← (if bool_decide (7 < length parts)%nat
               then getitem parts 7 else Return "");
  Return (params_dict time mode font_size color timestamp pool
            danmaku_id user_hash).

(** [parse_params_string]: the [try] block returns from inside the [if];
    [ValueError] and [IndexError] are swallowed; every path that does not
    return from the [try] ends in [return {}]. *)
Definition parse_params_string (params : string) : res (gmap string pyval) :=
  let parts := split params in
  if bool_decide (8 <= length parts)%nat then
    match build parts with
    | Return d => Return d
    | Raise ValueError | Raise IndexError => Return ∅
    | Raise e => Raise e
    end
  else Return ∅.

(** Upper-case hexadecimal digit of a value in [0, 15]. *)
Definition hex_digit (n : Z) : ascii :=
  if (n <? 10)%Z then ascii_of_N (Z.to_N (48 + n)) else ascii_of_N (Z.to_N (55 + n)).

(** Hexadecimal digits of a non-negative integer, most significant first,
    pushed in front of [acc]. *)
Fixpoint hex_digits (fuel : nat) (n : Z) (acc : list ascii) : list ascii :=
  match fuel with
  | O => acc
  | S fuel' =>
      let acc' := hex_digit (n mod 16) :: acc in
      if (n <? 16)%Z then acc' else hex_digits fuel' (n / 16) acc'
  end.

Definition to_hex (n : Z) : list ascii :=
  hex_digits (S (Z.to_nat (Z.log2 n))) n [].

(** The format specification [06X]: sign first, then zeros up to a total
    width of six characters, then the digits; nothing is cut. *)
Definition format_06X (n : Z) : list ascii :=
  let sign := if (n <? 0)%Z then ["-"%char] else [] in
  let digits := to_hex (Z.abs n) in
  (sign ++ repeat "0"%char (6 - length sign - length digits) ++ digits)%list.

(** [get_color_hex]: the f-string [#{color:06X}]. *)
Definition get_color_hex (color : Z) : string :=
  String "#"%char (string_of_list_ascii (format_06X color)).

(** Reading of a hexadecimal digit string, for stating what
    [get_color_hex] prints. *)
Definition is_upper_hex (c : ascii) : bool :=
  let n := Chars.code c in
  (((48 <=? n) && (n <=? 57)) || ((65 <=? n) && (n <=? 70)))%N.

Definition hex_digit_value (c : ascii) : Z :=
  let n := Z.of_N (Chars.code c) in
  if (n <=? 57)%Z then n - 48 else n - 55.

Definition hex_value (ds : list ascii) : Z :=
  fold_left (fun acc c => 16 * acc + hex_digit_value c) ds 0.

(** Field [i] exists and the conversion [f] accepts it. *)
Definition parses {A} (f : string -> res A) (parts : list string) (i : nat) : Prop :=
  exists p, parts !! i = Some p /\ returned (f p).

(** The six numeric fields convert: [float] for the first, [int] for the
    next five. *)
Definition numeric_fields_parse (parts : list string) : Prop :=
  parses py_float parts 0 /\ parses py_int parts 1 /\ parses py_int parts 2 /\
  parses py_int parts 3 /\ parses py_int parts 4 /\ parses py_int parts 5.

(** A string without a comma. *)
Definition comma_free (s : string) : Prop :=
  Forall (fun c => Chars.is_comma c = false) (list_ascii_of_string s).

(** A dictionary holding all eight entries, each of its type. *)
Definition complete_record (d : gmap string pyval) : Prop :=
  exists time mode font_size color timestamp pool danmaku_id user_hash,
    d = params_dict time mode font_size color timestamp pool danmaku_id user_hash.

End DanmakuParamsParser.

(** ** [EnhancedCommentStatistics] (danmaku_parser.py) *)

Module EnhancedCommentStatistics.
Import Builtins DanmakuParamsParser.

(** What [self.session.execute] answers to the four statements the class
    issues.  Each may raise.  The three view queries return
    [(code, count)] rows of [comment_params_view]; the fourth is
    [select(Comment.p).where(Comment.episode_id == episode_id).limit(limit)]. *)
Record Session : Type := {
  view_color_rows : Z -> res (list (Z * Z));
  view_mode_rows : Z -> res (list (Z * Z));
  view_font_size_rows : Z -> res (list (Z * Z));
  select_p : Z -> Z -> res (list string)
}.

(** The dictionary returned by [get_comprehensive_statistics]; the key
    [sample_limit] is present on the Python path only. *)
Record statistics : Type := {
  method : string;
  sample_limit : option Z;
  color_distribution : gmap string Z;
  mode_distribution : gmap string Z;
  font_size_distribution : gmap string Z
}.

(** Sum of the counts of a distribution. *)
Definition total_count (dist : gmap string Z) : Z :=
  map_fold (fun _ count acc => count + acc) 0 dist.

(** The rows that decode: those for which [parse_params_string] returns a
    non-empty dictionary. *)
Definition decodes (params_str : string) : Prop :=
  match parse_params_string params_str with
  | Return d => negb (bool_decide (d = ∅))
  | Raise _ => false
  end = true.

Section Statistics.
(** The two label tables [get_mode_name] and [get_font_size_name] map a
    code to fixed display text; the text itself plays no role here. *)
Variable get_mode_name : Z -> string.
Variable get_font_size_name : Z -> string.
Variable session : Session.

(** [for code, count in result.all(): dist[label(code)] = count] *)
Definition relabel (label : Z -> string) (rows : list (Z * Z)) : gmap string Z :=
  fold_left (fun dist row => <[label row.1 := row.2]> dist) rows ∅.

Definition get_color_distribution_via_view (episode_id : Z) : res (gmap string Z) :=
  rows ← view_color_rows session episode_id;
  Return (relabel get_color_hex rows).

Definition get_mode_distribution_via_view (episode_id : Z) : res (gmap string Z) :=
  rows ← view_mode_rows session episode_id;
  Return (relabel get_mode_name rows).

Definition get_font_size_distribution_via_view (episode_id : Z) : res (gmap string Z) :=
  rows ← view_font_size_rows session episode_id;
  Return (relabel get_font_size_name rows).

(** The counting loop of the Python path: rows whose dictionary lacks
    [field] are skipped.  The entry stored under [field] is always an
    integer; the remaining branch is there for totality. *)
Fixpoint tally (field : string) (label : Z -> string) (rows : list string)
    (counts : gmap string Z) : res (gmap string Z) :=
  match rows with
  | [] => Return counts
  | params_str :: rest =>
      params ← parse_params_string params_str;
      match params !! field with
      | Some (VInt v) =>
          let k := label v in
          tally field label rest (<[k := default 0 (counts !! k) + 1]> counts)
      | Some _ => Raise ValueError
      | None => tally field label rest counts
      end
  end.

(** The final [dict(sorted(...))] only reorders the entries, which a
    [gmap] does not record. *)
Definition get_color_distribution_via_python (episode_id limit : Z)
  : res (gmap string Z) :=
  rows ← select_p session episode_id limit;
  tally "color" get_color_hex rows ∅.

Definition get_mode_distribution_via_python (episode_id limit : Z)
  : res (gmap string Z) :=
  rows ← select_p session episode_id limit;
  tally "mode" get_mode_name rows ∅.

(** The [try] block of [get_comprehensive_statistics]. *)
Definition view_path (episode_id : Z) : res statistics :=
  color_dist ← get_color_distribution_via_view episode_id;
  mode_dist ← get_mode_distribution_via_view episode_id;
  size_dist ← get_font_size_distribution_via_view episode_id;
  Return {| method := "database_view"; sample_limit := None;
            color_distribution := color_dist;
            mode_distribution := mode_dist;
            font_size_distribution := size_dist |}.

(** The code after the [try] block. *)
Definition python_path (episode_id python_limit : Z) : res statistics :=
  color_dist ← get_color_distribution_via_python episode_id python_limit;
  mode_dist ← get_mode_distribution_via_python episode_id python_limit;
  rows ← select_p session episode_id python_limit;
  size_counts ← tally "font_size" get_font_size_name rows ∅;
  Return {| method := "python_parsing"; sample_limit := Some python_limit;
            color_distribution := color_dist;
            mode_distribution := mode_dist;
            font_size_distribution := size_counts |}.

(** [except Exception] catches whatever the view path raises; nothing
    guards the Python path. *)
Definition get_comprehensive_statistics (episode_id : Z) (use_view : bool)
    (python_limit : Z) : res statistics :=
  if use_view then
    match view_path episode_id with
    | Return stats => Return stats
    | Raise _ => python_path episode_id python_limit
    end
  else python_path episode_id python_limit.

End Statistics.

(** A session on which every statement raises, as when the database
    cannot be reached. *)
Definition unreachable_session : Session := {|
  view_color_rows := fun _ => Raise (DatabaseError "connection refused");
  view_mode_rows := fun _ => Raise (DatabaseError "connection refused");
  view_font_size_rows := fun _ => Raise (DatabaseError "connection refused");
  select_p := fun _ _ => Raise (DatabaseError "connection refused")
|}.

(** A session without the view: the view statements raise, the table
    itself answers with two rows, one of them malformed. *)
Definition viewless_session : Session := {|
  view_color_rows := fun _ => Raise (DatabaseError "no such table: comment_params_view");
  view_mode_rows := fun _ => Raise (DatabaseError "no such table: comment_params_view");
  view_font_size_rows := fun _ => Raise (DatabaseError "no such table: comment_params_view");
  select_p := fun _ _ =>
    Return ["23.5,1,25,16777215,1609459200,0,test_id,user_hash_123"; "1,2,3"]
|}.

End EnhancedCommentStatistics.

(** ** The [Comment] row (models/episode.py) *)

(** Columns of the [comment] table: [t] is a [DECIMAL(10,2)] number of
    seconds, [m] the text, [p] the packed parameter string. *)
Record Comment : Type := {
  id : Z;
  episode_id : Z;
  cid : string;
  p : string;
  m : string;
  t : Q
}.

(** ** [DanmakuService] (services/episode.py) *)

Module DanmakuService.

(** [set(s)]: the set of characters of a string. *)
Definition char_set (s : string) : gset ascii :=
  list_to_set (list_ascii_of_string s).

Definition of_nat (n : nat) : Q := inject_Z (Z.of_nat n).

(** [_string_similarity] *)
Definition _string_similarity (s1 s2 : string) : Q :=
  if bool_decide (s1 = s2) then 1%Q
  else if bool_decide (s1 = "") || bool_decide (s2 = "") then 0%Q
  else
    let common_chars := char_set s1 ∩ char_set s2 in
    let all_chars := char_set s1 ∪ char_set s2 in
    if bool_decide (size all_chars <> 0%nat)
    then (of_nat (size common_chars) / of_nat (size all_chars))%Q
    else 0%Q.

(** The Jaccard index of two sets of characters, as the specification
    words it: size of the intersection over size of the union. *)
Definition jaccard (A B : gset ascii) : Q :=
  (of_nat (size (A ∩ B)) / of_nat (size (A ∪ B)))%Q.

(** The built-in [max] on two arguments: the second is taken only when it
    is strictly greater. *)
Definition py_max (a b : Q) : Q := if Qle_bool b a then a else b.

(** [_calculate_danmaku_similarity] *)
Definition _calculate_danmaku_similarity (danmaku1 danmaku2 : Comment) : Q :=
  let content_similarity := _string_similarity (m danmaku1) (m danmaku2) in
  let time_diff := Qabs (t danmaku1 - t danmaku2) in
  let time_similarity := py_max 0 (1 - time_diff / 5) in
  (content_similarity * (8 # 10) + time_similarity * (2 # 10))%Q.

(** The test [similarity >= similarity_threshold]. *)
Definition is_duplicate (similarity_threshold : Q) (danmaku1 danmaku2 : Comment) : bool :=
  Qle_bool similarity_threshold (_calculate_danmaku_similarity danmaku1 danmaku2).

Section Grouping.
Variable similarity_threshold : Q.

(** Inner loop of [cleanup_duplicate_danmaku]:
    [for j, danmaku2 in enumerate(all_danmaku[i+1:], i+1)].  [rest] is
    what remains of the slice and [j] the index of its head. *)
Fixpoint inner_loop (danmaku1 : Comment) (j : nat) (rest : list Comment)
    (group : list Comment) (processed : gset nat) : list Comment * gset nat :=
  match rest with
  | [] => (group, processed)
  | danmaku2 :: rest' =>
      if bool_decide (j ∈ processed) then
        inner_loop danmaku1 (S j) rest' group processed
      else if is_duplicate similarity_threshold danmaku1 danmaku2 then
        inner_loop danmaku1 (S j) rest' (group ++ [danmaku2]) (processed ∪ {[j]})
      else
        inner_loop danmaku1 (S j) rest' group processed
  end.

(** Outer loop: [for i, danmaku1 in enumerate(all_danmaku)].  [items] is
    [all_danmaku[i:]], so its tail is the slice [all_danmaku[i+1:]]. *)
Fixpoint outer_loop (i : nat) (items : list Comment)
    (duplicates : list (list Comment)) (processed : gset nat)
  : list (list Comment) * gset nat :=
  match items with
  | [] => (duplicates, processed)
  | danmaku1 :: rest =>
      if bool_decide (i ∈ processed) then
        outer_loop (S i) rest duplicates processed
      else
        let '(group, processed') :=
          inner_loop danmaku1 (S i) rest [danmaku1] processed in
        let duplicates' :=
          if bool_decide (1 < length group)%nat
          then (duplicates ++ [group])%list else duplicates in
        outer_loop (S i) rest duplicates' (processed' ∪ {[i]})
  end.

(** The duplicate groups computed by [cleanup_duplicate_danmaku]; with
    fewer than two comments the method returns before the search. *)
Definition find_duplicates (all_danmaku : list Comment) : list (list Comment) :=
  if bool_decide (length all_danmaku < 2)%nat then []
  else (outer_loop 0 all_danmaku [] ∅).1.

(** Identifiers handed to [self.repos.comment.delete]: every member of
    every group but its first. *)
Definition removed_ids (duplicates : list (list Comment)) : list Z :=
  concat (map (fun group => map id (tail group)) duplicates).

(** Grouping as the specification words it, on the list of comments not
    yet processed: the head is the anchor, its group takes every later
    comment that passes the test against the anchor, the search goes on
    with the others; a group of one is not reported. *)
Fixpoint greedy_groups_fuel (fuel : nat) (unprocessed : list Comment)
  : list (list Comment) :=
  match fuel, unprocessed with
  | S fuel', anchor :: later =>
      let members := filter (fun c => is_duplicate similarity_threshold anchor c = true) later in
      let others := filter (fun c => is_duplicate similarity_threshold anchor c <> true) later in
      match members with
      | [] => greedy_groups_fuel fuel' others
      | _ :: _ => (anchor :: members) :: greedy_groups_fuel fuel' others
      end
  | _, _ => []
  end.

Definition greedy_groups (comments : list Comment) : list (list Comment) :=
  greedy_groups_fuel (length comments) comments.

(** A group as the grouping reports it: an anchor followed by one
    member or more, each of which passed the test against the anchor. *)
Definition anchored (group : list Comment) : Prop :=
  exists anchor members,
    group = anchor :: members /\ members <> [] /\
    Forall (fun c => is_duplicate similarity_threshold anchor c = true) members.

(** The comments of [items] whose index, counted from [j], is not in
    [processed]. *)
Fixpoint unprocessed_from (j : nat) (items : list Comment) (processed : gset nat)
  : list Comment :=
  match items with
  | [] => []
  | c :: rest =>
      if bool_decide (j ∈ processed) then unprocessed_from (S j) rest processed
      else c :: unprocessed_from (S j) rest processed
  end.

End Grouping.

End DanmakuService.

(** ** [CommentRepository.get_popular_danmaku] (repositories/episode.py) *)

Module CommentRepository.

(** The join condition of the first statement:
    [c2.episode_id = c1.episode_id AND c2.t BETWEEN c1.t - 5 AND c1.t + 5
     AND c2.id != c1.id]. *)
Definition nearby (c1 c2 : Comment) : bool :=
  bool_decide (episode_id c2 = episode_id c1)
  && Qle_bool (t c1 - 5) (t c2) && Qle_bool (t c2) (t c1 + 5)
  && negb (bool_decide (id c2 = id c1)).

(** [COUNT(c2.id)] over the rows joined to [c1]. *)
Definition nearby_count (table : list Comment) (c1 : Comment) : nat :=
  length (filter (fun c2 => nearby c1 c2 = true) table).

(** [ORDER BY nearby_count DESC, c1.t ASC] *)
Definition rank_before (x y : Comment * nat) : Prop :=
  (y.2 < x.2)%nat \/ (x.2 = y.2 /\ Qle_bool (t x.1) (t y.1) = true).

#[global] Instance rank_before_dec x y : Decision (rank_before x y).
Proof. unfold rank_before. apply _. Defined.

(** Result of the first statement: the rows of the episode, one per
    comment (identifiers are the primary key), each with its count,
    ordered and cut at [limit]. *)
Definition ranked_rows (table : list Comment) (episode : Z) (limit : nat)
  : list (Comment * nat) :=
  take limit
    (merge_sort rank_before
       (map (fun c1 => (c1, nearby_count table c1))
            (filter (fun c1 => episode_id c1 = episode) table))).

(** [get_popular_danmaku]: the identifiers of the ranked rows are looked
    up again by [select(Comment).where(Comment.id.in_(comment_ids))], a
    statement without [ORDER BY]; the rows come back in table order. *)
Definition get_popular_danmaku (table : list Comment) (episode : Z) (limit : nat)
  : list Comment :=
  let comment_ids := map (fun row => id row.1) (ranked_rows table episode limit) in
  match comment_ids with
  | [] => []
  | _ :: _ => filter (fun c => id c ∈ comment_ids) table
  end.

(** A list of comments is in ranking order when each element stands
    before all later ones. *)
Definition density_ordered (table : list Comment) (result : list Comment) : Prop :=
  Sorted rank_before (map (fun c => (c, nearby_count table c)) result).

End CommentRepository.

(** ** Deleting the duplicates (services/episode.py, repositories/base.py) *)

Module Cleanup.
Import DanmakuService.

(** [BaseRepository.delete]: [DELETE FROM comment WHERE id = :id]. *)
Definition delete (row_id : Z) (rows : list Comment) : list Comment :=
  filter (fun c => id c <> row_id) rows.

(** [for danmaku in group[1:]: delete(danmaku.id); removed_count += 1].
    The state is the rows left and the counter. *)
Fixpoint delete_members (members : list Comment) (state : list Comment * nat)
  : list Comment * nat :=
  match members with
  | [] => state
  | danmaku :: rest => delete_members rest (delete (id danmaku) state.1, S state.2)
  end.

(** [for group in duplicates: ...] *)
Fixpoint delete_groups (duplicates : list (list Comment)) (state : list Comment * nat)
  : list Comment * nat :=
  match duplicates with
  | [] => state
  | group :: rest => delete_groups rest (delete_members (tail group) state)
  end.

(** The deletion part of [cleanup_duplicate_danmaku] run on the comments
    it fetched: the rows left and [removed_count]. *)
Definition cleanup (similarity_threshold : Q) (all_danmaku : list Comment)
  : list Comment * nat :=
  delete_groups (find_duplicates similarity_threshold all_danmaku) (all_danmaku, 0%nat).

(** The members of the groups, anchors left out. *)
Definition members_of (duplicates : list (list Comment)) : list Comment :=
  concat (tail <$> duplicates).

(** The comments the greedy grouping leaves in place: every anchor and
    every comment that joined no group. *)
Fixpoint kept_fuel (similarity_threshold : Q) (fuel : nat) (unprocessed : list Comment)
  : list Comment :=
  match fuel, unprocessed with
  | S fuel', anchor :: later =>
      anchor :: kept_fuel similarity_threshold fuel'
                  (filter (fun c => is_duplicate similarity_threshold anchor c <> true) later)
  | _, _ => []
  end.

Definition kept (similarity_threshold : Q) (comments : list Comment) : list Comment :=
  kept_fuel similarity_threshold (length comments) comments.

End Cleanup.

(** ** Reading a colour label back *)

Module ColorLabel.
Import DanmakuParamsParser.

(** The integer a label printed by [get_color_hex] stands for: after the
    [#], an optional minus sign and hexadecimal digits. *)
Definition read_color_hex (label : string) : Z :=
  match list_ascii_of_string label with
  | _ :: rest =>
      match rest with
      | c :: digits =>
          if Chars.is_minus c then - hex_value digits else hex_value rest
      | [] => 0
      end
  | [] => 0
  end.

End ColorLabel.

(** ** The [Comment] model's own parsing (models/episode.py) *)

#[global] Instance pyexn_eq_dec : EqDecision pyexn.
Proof. solve_decision. Defined.
#[global] Instance pyfloat_eq_dec : EqDecision pyfloat.
Proof. solve_decision. Defined.
#[global] Instance pyval_eq_dec : EqDecision pyval.
Proof. solve_decision. Defined.
#[global] Instance res_eq_dec {A} `{EqDecision A} : EqDecision (res A).
Proof. solve_decision. Defined.

Module CommentModel.
Import Builtins.

(** The dictionary literal of [Comment.parse_params]; its seventh entry is
    stored under [user_id]. *)
Definition model_dict (time : pyfloat) (mode font_size color timestamp pool : Z)
    (user_id user_hash : string) : gmap string pyval :=
  <["time" := VFloat time]>
  (<["mode" := VInt mode]>
  (<["font_size" := VInt font_size]>
  (<["color" := VInt color]>
  (<["timestamp" := VInt timestamp]>
  (<["pool" := VInt pool]>
  (<["user_id" := VStr user_id]>
  (<["user_hash" := VStr user_hash]> ∅))))))).

(** [Comment.parse_params]: the same fields as the parser class reads,
    without a [try]: a failed conversion raises. *)
Definition parse_params (self : Comment) : res (gmap string pyval) :=
  let parts := split (p self) in
  if bool_decide (8 <= length parts)%nat then
    p0 ← getitem parts 0; time ← py_float p0;
    p1 ← getitem parts 1; mode ← py_int p1;
    p2 ← getitem parts 2; font_size ← py_int p2;
    p3 ← getitem parts 3; color ← py_int p3;
    p4 ← getitem parts 4; timestamp ← py_int p4;
    p5 ← getitem parts 5; pool ← py_int p5;
    user_id ← getitem parts 6;
    user_hash ← (if bool_decide (7 < length parts)%nat
                 then getitem parts 7 else Return "");
    Return (model_dict time mode font_size color timestamp pool user_id user_hash)
  else Return ∅.

(** [self.parse_params().get(key, fallback)], the body of the properties. *)
Definition param_or (key : string) (fallback : pyval) (self : Comment) : res pyval :=
  params ← parse_params self;
  Return (default fallback (params !! key)).

Definition mode : Comment -> res pyval := param_or "mode" (VInt 1).
Definition color : Comment -> res pyval := param_or "color" (VInt 16777215).
Definition font_size : Comment -> res pyval := param_or "font_size" (VInt 25).
Definition timestamp : Comment -> res pyval := param_or "timestamp" (VInt 0).
Definition user_hash : Comment -> res pyval := param_or "user_hash" (VStr "").

End CommentModel.

(** ** [CommentRepository.get_top_commenters] (repositories/episode.py) *)

Module TopCommenters.

(** Truth value of a Python object, as [if user_hash:] takes it. *)
Definition truthy (v : pyval) : bool :=
  match v with
  | VStr s => negb (bool_decide (s = ""))
  | VInt z => negb (z =? 0)%Z
  | VFloat (FDec _ mantissa _) => negb (mantissa =? 0)%N
  | VFloat _ => true
  end.

(** [user_stats[k] = user_stats.get(k, 0) + 1] on a dictionary kept as the
    list of its items in insertion order: a known key keeps its place, a
    new one goes last.  The keys that occur here are strings. *)
Fixpoint increment (k : pyval) (user_stats : list (pyval * Z)) : list (pyval * Z) :=
  match user_stats with
  | [] => [(k, 1)]
  | (k', n) :: rest =>
      if decide (k' = k) then (k', n + 1) :: rest
      else (k', n) :: increment k rest
  end.

(** The counting loop. *)
Fixpoint count_users (comments : list Comment) (user_stats : list (pyval * Z))
  : res (list (pyval * Z)) :=
  match comments with
  | [] => Return user_stats
  | comment :: rest =>
      user_hash ← CommentModel.user_hash comment;
      if truthy user_hash then count_users rest (increment user_hash user_stats)
      else count_users rest user_stats
  end.

(** [sorted(items, key=lambda x: x[1], reverse=True)]: descending by
    count, items with equal counts in their original order. *)
Fixpoint insert_desc (x : pyval * Z) (sorted : list (pyval * Z)) : list (pyval * Z) :=
  match sorted with
  | [] => [x]
  | y :: rest =>
      if (y.2 <=? x.2)%Z then x :: y :: rest else y :: insert_desc x rest
  end.

Definition sorted_desc (items : list (pyval * Z)) : list (pyval * Z) :=
  foldr insert_desc [] items.

(** The slice [l[:limit]]: a negative [limit] counts from the end. *)
Definition slice_to {A} (limit : Z) (l : list A) : list A :=
  if (0 <=? limit)%Z then take (Z.to_nat limit) l
  else take (length l - Z.to_nat (- limit)) l.

(** [get_top_commenters], from the comments that
    [get_danmaku_by_episode] returned. *)
Definition get_top_commenters (comments : list Comment) (limit : Z)
  : res (list (pyval * Z)) :=
  user_stats ← count_users comments [];
  Return (slice_to limit (sorted_desc user_stats)).

(** Number of comments whose [user_hash] property returns [k]. *)
Definition comments_of (k : pyval) (comments : list Comment) : nat :=
  length (filter (fun c => CommentModel.user_hash c = Return k) comments).

(** Count recorded for [k] in a list of items. *)
Fixpoint recorded (k : pyval) (user_stats : list (pyval * Z)) : Z :=
  match user_stats with
  | [] => 0
  | (k', n) :: rest => (if decide (k' = k) then n else 0) + recorded k rest
  end.

End TopCommenters.

(** ** Batched import (services/episode.py, repositories/base.py) *)

Module ImportBatches.

(** An entry of the [errors] list. *)
Record batch_error : Type := {
  batch_start : nat;
  batch_len : nat;
  error : pyexn
}.

Section Batches.
(** The dictionaries to store, the mapped instances, and the state of the
    database session. *)
Context {item instance store : Type}.
(** The model's constructor applied to the entries of an item. *)
Variable model : item -> instance.
(** [self.session.add_all(instances); await self.session.flush()]: the new
    state, and the exception if one is raised. *)
Variable flush : store -> list instance -> store * option pyexn.
(** [await self.session.refresh(instance)]: the new state and the
    refreshed instance, or an exception. *)
Variable refresh : store -> instance -> store * res instance.

(** [for instance in instances: await self.session.refresh(instance)] *)
Fixpoint refresh_all (st : store) (instances : list instance)
  : store * res (list instance) :=
  match instances with
  | [] => (st, Return [])
  | inst :: rest =>
      match refresh st inst with
      | (st', Return inst') =>
          match refresh_all st' rest with
          | (st'', Return rest') => (st'', Return (inst' :: rest'))
          | (st'', Raise e) => (st'', Raise e)
          end
      | (st', Raise e) => (st', Raise e)
      end
  end.

(** [BaseRepository.create_many] *)
Definition create_many (st : store) (items : list item) : store * res (list instance) :=
  let instances := model <$> items in
  match flush st instances with
  | (st', Some e) => (st', Raise e)
  | (st', None) => refresh_all st' instances
  end.

(** The loop [for i in range(0, len(danmaku_list), batch_size)] of
    [import_danmaku_from_xml] for a positive step: [i] is the start of the
    next batch, the state carries [total_imported] and [errors]. *)
Fixpoint batch_loop (fuel : nat) (batch_size i : nat) (danmaku_list : list item)
    (st : store) (total_imported : nat) (errors : list batch_error)
  : store * nat * list batch_error :=
  match fuel with
  | O => (st, total_imported, errors)
  | S fuel' =>
      if bool_decide (i < length danmaku_list)%nat then
        let batch := take batch_size (drop i danmaku_list) in
        match create_many st batch with
        | (st', Return imported_batch) =>
            batch_loop fuel' batch_size (i + batch_size) danmaku_list st'
              (total_imported + length imported_batch) errors
        | (st', Raise e) =>
            batch_loop fuel' batch_size (i + batch_size) danmaku_list st'
              total_imported
              (errors ++ [{| batch_start := i; batch_len := length batch; error := e |}])
        end
      else (st, total_imported, errors)
  end.

(** The batch import: [range] raises [ValueError] on a step of zero and is
    empty on a negative step. *)
Definition import_batches (batch_size : Z) (danmaku_list : list item) (st : store)
  : store * res (nat * list batch_error) :=
  if (batch_size =? 0)%Z then (st, Raise ValueError)
  else if (batch_size <? 0)%Z then (st, Return (0%nat, []))
  else
    let '(st', total_imported, errors) :=
      batch_loop (length danmaku_list) (Z.to_nat batch_size) 0 danmaku_list st 0 [] in
    (st', Return (total_imported, errors)).

(** The figure reported as [batches_processed]. *)
Definition batches_processed (batch_size : Z) (danmaku_list : list item) : Z :=
  (Z.of_nat (length danmaku_list) + batch_size - 1) / batch_size.

End Batches.

(** Number of entries in the batches listed as failed. *)
Definition failed_items (errors : list batch_error) : nat :=
  sum_list_with batch_len errors.

End ImportBatches.

(** ** [CommentRepository.get_danmaku_statistics] (repositories/episode.py) *)

Module DanmakuStatistics.
Import EnhancedCommentStatistics.

(** What the session answers to the three basic statements: the count of
    the episode's comments, the average of [t], and the
    [(minute, count)] rows of the per-minute grouping.  A scalar may be
    [NULL]. *)
Record BasicStatements : Type := {
  count_rows : Z -> res (option Z);
  average_t : Z -> res (option Q);
  minute_rows : Z -> res (list (Z * Z))
}.

(** The dictionary [basic_stats] once it is returned. *)
Record danmaku_statistics : Type := {
  total_count : Z;
  average_time_offset : Q;
  time_distribution : gmap Z Z;
  colors : gmap string Z;
  modes : gmap string Z;
  font_sizes : gmap string Z;
  statistics_method : string;
  reported_sample_limit : option Z;
  enhanced_error : option string
}.

Section Statistics.
Variable get_mode_name : Z -> string.
Variable get_font_size_name : Z -> string.
(** The built-ins [round(x, 2)] and [str(e)]. *)
Variable round2 : Q -> Q.
Variable exn_text : pyexn -> string.
Variable statements : BasicStatements.
Variable session : Session.

(** [dict(rows)]: a later pair replaces an earlier one with the same key. *)
Definition dict_of_rows (rows : list (Z * Z)) : gmap Z Z :=
  fold_left (fun d row => <[row.1 := row.2]> d) rows ∅.

(** [x or 0] on a scalar that may be [None]; zero itself is falsy. *)
Definition or_zero (x : option Z) : Z := default 0 x.
Definition or_zero_Q (x : option Q) : Q := default 0%Q x.

(** [get_danmaku_statistics]; the enhanced statistics are asked with the
    default [python_limit] of 1000. *)
Definition get_danmaku_statistics (episode : Z) (use_enhanced use_view : bool)
  : res danmaku_statistics :=
  total ← count_rows statements episode;
  avg ← average_t statements episode;
  rows ← minute_rows statements episode;
  let basic method colors' modes' sizes' limit err :=
    {| total_count := or_zero total;
       average_time_offset := round2 (or_zero_Q avg);
       time_distribution := dict_of_rows rows;
       colors := colors'; modes := modes'; font_sizes := sizes';
       statistics_method := method;
       reported_sample_limit := limit;
       enhanced_error := err |} in
  if use_enhanced then
    match get_comprehensive_statistics get_mode_name get_font_size_name
            session episode use_view 1000 with
    | Return enhanced =>
        Return (basic (method enhanced) (color_distribution enhanced)
                  (mode_distribution enhanced) (font_size_distribution enhanced)
                  (sample_limit enhanced) None)
    | Raise e =>
        Return (basic "basic_only" ∅ ∅ ∅ None (Some (exn_text e)))
    end
  else Return (basic "basic_only" ∅ ∅ ∅ None None).

End Statistics.

End DanmakuStatistics.

(** ** [EpisodeService] (services/episode.py, services/base.py) *)

Module EpisodeService.

(** Values found in the [episode_data] dictionaries, of type
    [Dict[str, Any]].  The checks tell [None], booleans, integers and
    strings apart; of any other object they use [len] alone.  [FSized n o]
    is an object [o] on which [len] returns [n]: a list, a tuple, a
    dictionary, a set or a bytes object of [n] entries.  [FUnsized o] is an
    object on which [len] raises [TypeError], a float for instance. *)
Inductive field_value : Type :=
| FNone
| FBool (b : bool)
| FInt (z : Z)
| FStr (s : string)
| FSized (n : nat) (o : N)
| FUnsized (o : N).

(** Exceptions of the service layer: the two service errors raised here,
    a database error, and the built-in [TypeError] and [KeyError]. *)
Inductive exn : Type :=
| ValidationError (field : string)
| ResourceNotFoundError (resource_type : string) (resource_id : field_value)
| SQLAlchemyError (msg : string)
| TypeError
| KeyError (key : string).

Inductive outcome (A : Type) : Type :=
| Done (a : A)
| Raised (e : exn).
Arguments Done {A} a.
Arguments Raised {A} e.

#[global] Instance outcome_mbind : MBind outcome :=
  fun A B k m => match m with Done a => k a | Raised e => Raised e end.
#[global] Instance outcome_mret : MRet outcome := fun A a => Done a.

(** A [ServiceResult]: success with its data, or an error with the code of
    its [ServiceError] and, for a validation error, the field. *)
Inductive ServiceResult (A : Type) : Type :=
| success_result (data : A)
| error_result (error_code : string) (field : option string).
Arguments success_result {A} data.
Arguments error_result {A} error_code field.

(** [ServiceResult.validation_error(message, field)] *)
Definition validation_error {A} (field : string) : ServiceResult A :=
  error_result "VALIDATION_ERROR" (Some field).

(** [_handle_service_error]: a service error keeps its code, a database
    error and anything else are wrapped. *)
Definition _handle_service_error {A} (error : exn) : ServiceResult A :=
  match error with
  | ValidationError field => error_result "VALIDATION_ERROR" (Some field)
  | ResourceNotFoundError _ _ => error_result "RESOURCE_NOT_FOUND" None
  | SQLAlchemyError _ => error_result "DATABASE_ERROR" None
  | TypeError | KeyError _ => error_result "INTERNAL_ERROR" None
  end.

(** Whitespace removed by [str.strip()]. *)
Definition is_whitespace (c : ascii) : bool :=
  let n := Chars.code c in
  (((9 <=? n) && (n <=? 13)) || ((28 <=? n) && (n <=? 32)) ||
   (n =? 133) || (n =? 160))%N.

(** [not s.strip()]: the string holds nothing but whitespace. *)
Definition blank (s : string) : bool :=
  forallb is_whitespace (list_ascii_of_string s).

(** [_validate_required_fields] *)
Fixpoint _validate_required_fields (data : gmap string field_value)
    (required_fields : list string) : outcome unit :=
  match required_fields with
  | [] => Done tt
  | field :: rest =>
      match data !! field with
      | None | Some FNone => Raised (ValidationError field)
      | Some (FStr s) =>
          if blank s then Raised (ValidationError field)
          else _validate_required_fields data rest
      | Some _ => _validate_required_fields data rest
      end
  end.

(** [len(value)]: the number of characters of a string, the number of
    entries of a sized object, [TypeError] on [None], a boolean, an integer
    or an object without a length. *)
Definition len (value : field_value) : outcome nat :=
  match value with
  | FStr s => Done (String.length s)
  | FSized n _ => Done n
  | FNone | FBool _ | FInt _ | FUnsized _ => Raised TypeError
  end.

(** [_validate_field_length] *)
Definition _validate_field_length (value : field_value) (field_name : string)
    (max_length min_length : nat) : outcome unit :=
  n ← len value;
  if bool_decide (n < min_length)%nat then Raised (ValidationError field_name)
  else
    n' ← len value;
    if bool_decide (max_length < n')%nat then Raised (ValidationError field_name)
    else Done tt.

(** [data[key]] *)
Definition item (data : gmap string field_value) (key : string) : outcome field_value :=
  match data !! key with
  | Some v => Done v
  | None => Raised (KeyError key)
  end.

(** [not isinstance(episode_index, int) or episode_index < 1]; a boolean
    is an [int], [True] being one. *)
Definition bad_episode_index (v : field_value) : bool :=
  match v with
  | FInt z => (z <? 1)%Z
  | FBool b => negb b
  | _ => true
  end.

Section Service.
(** The state of the repositories, the rows they return, and the calls
    made on them: each returns the new state with its outcome. *)
Context {store source episode : Type}.
Variable get_source_by_id : store -> field_value -> store * outcome (option source).
Variable get_by_source_and_episode :
  store -> field_value -> field_value -> store * outcome (option episode).
Variable create : store -> gmap string field_value -> store * outcome episode.
Variable commit : store -> store * option exn.
Variable rollback : store -> store * option exn.

(** [_check_resource_exists] on the data source. *)
Definition _check_resource_exists (st : store) (resource_id : field_value)
  : store * outcome source :=
  match get_source_by_id st resource_id with
  | (st', Done (Some resource)) => (st', Done resource)
  | (st', Done None) => (st', Raised (ResourceNotFoundError "AnimeSource" resource_id))
  | (st', Raised e) => (st', Raised e)
  end.

(** The checks of [create_episode_with_validation] that read the data
    only: [None] when they pass, otherwise the result returned. *)
Definition validate_episode_data (episode_data : gmap string field_value)
  : outcome (option (ServiceResult (episode * source))) :=
  _ ← _validate_required_fields episode_data ["source_id"; "title"; "episode_index"];
  title ← item episode_data "title";
  _ ← _validate_field_length title "title" 255 1;
  episode_index ← item episode_data "episode_index";
  if bad_episode_index episode_index then Done (Some (validation_error "episode_index"))
  else Done None.

(** [create_episode_with_validation] *)
Definition create_episode_with_validation (st : store)
    (episode_data : gmap string field_value) (check_duplicates : bool)
  : store * ServiceResult (episode * source) :=
  match validate_episode_data episode_data with
  | Raised e => (st, _handle_service_error e)
  | Done (Some result) => (st, result)
  | Done None =>
      match item episode_data "source_id", item episode_data "episode_index" with
      | Done source_id, Done episode_index =>
          match _check_resource_exists st source_id with
          | (st1, Raised e) => (st1, _handle_service_error e)
          | (st1, Done src) =>
              let create_it (st2 : store) :=
                match create st2 episode_data with
                | (st3, Done ep) => (st3, success_result (ep, src))
                | (st3, Raised e) => (st3, _handle_service_error e)
                end in
              if check_duplicates then
                match get_by_source_and_episode st1 source_id episode_index with
                | (st2, Raised e) => (st2, _handle_service_error e)
                | (st2, Done (Some _)) => (st2, validation_error "episode_index")
                | (st2, Done None) => create_it st2
                end
              else create_it st1
          end
      | Raised e, _ | _, Raised e => (st, _handle_service_error e)
      end
  end.

(** What [batch_create_episodes] keeps of each request. *)
Record batch_result : Type := {
  total_requested : nat;
  created_episodes : list episode;
  skipped_episodes : list (nat * field_value);
  errors : list (nat * gmap string field_value * exn)
}.

(** The loop of [batch_create_episodes]:
    [for i, episode_data in enumerate(episodes_data)], each turn inside its
    own [try]. *)
Fixpoint batch_loop (source_id : Z) (skip_duplicates : bool) (i : nat)
    (episodes_data : list (gmap string field_value)) (st : store)
    (created : list episode) (skipped : list (nat * field_value))
    (errs : list (nat * gmap string field_value * exn))
  : store * list episode * list (nat * field_value)
    * list (nat * gmap string field_value * exn) :=
  match episodes_data with
  | [] => (st, created, skipped, errs)
  | episode_data0 :: rest =>
      let episode_data := <["source_id" := FInt source_id]> episode_data0 in
      let next := batch_loop source_id skip_duplicates (S i) rest in
      let fail st' e := next st' created skipped (errs ++ [(i, episode_data, e)])%list in
      let create_it st' :=
        match create st' episode_data with
        | (st'', Done ep) => next st'' (created ++ [ep])%list skipped errs
        | (st'', Raised e) => fail st'' e
        end in
      match _validate_required_fields episode_data ["title"; "episode_index"] with
      | Raised e => fail st e
      | Done _ =>
          match item episode_data "episode_index" with
          | Raised e => fail st e
          | Done episode_index =>
              if skip_duplicates then
                match get_by_source_and_episode st (FInt source_id) episode_index with
                | (st', Raised e) => fail st' e
                | (st', Done (Some _)) =>
                    next st' created (skipped ++ [(i, episode_index)])%list errs
                | (st', Done None) => create_it st'
                end
              else create_it st
          end
      end
  end.

(** [batch_create_episodes]: the transaction is committed after the loop;
    a failed commit rolls back and ends in an error result, that of the
    rollback if the rollback raises in turn. *)
Definition batch_create_episodes (st : store) (source_id : Z)
    (episodes_data : list (gmap string field_value)) (skip_duplicates : bool)
  : store * ServiceResult batch_result :=
  match episodes_data with
  | [] => (st, validation_error "episodes_data")
  | _ :: _ =>
      match _check_resource_exists st (FInt source_id) with
      | (st1, Raised e) => (st1, _handle_service_error e)
      | (st1, Done _) =>
          let '(st2, created, skipped, errs) :=
            batch_loop source_id skip_duplicates 0 episodes_data st1 [] [] [] in
          match commit st2 with
          | (st3, Some e) =>
              match rollback st3 with
              | (st4, Some e') => (st4, _handle_service_error e')
              | (st4, None) => (st4, _handle_service_error e)
              end
          | (st3, None) =>
              (st3, success_result
                      {| total_requested := length episodes_data;
                         created_episodes := created;
                         skipped_episodes := skipped;
                         errors := errs |})
          end
      end
  end.

End Service.

(** A field passes [_validate_required_fields] when it is present, not
    [None], and not a blank string. *)
Definition present (data : gmap string field_value) (field : string) : Prop :=
  exists v, data !! field = Some v /\ v <> FNone /\
            forall s, v = FStr s -> blank s = false.

(** A title the checks let through: a string of 1 to 255 characters that
    is not all whitespace, or an object that is not a string and holds 1
    to 255 entries. *)
Definition acceptable_title (title : field_value) : Prop :=
  match title with
  | FStr s => blank s = false /\ (1 <= String.length s <= 255)%nat
  | FSized n _ => (1 <= n <= 255)%nat
  | FNone | FBool _ | FInt _ | FUnsized _ => False
  end.

(** The data a new episode must carry, said directly: a source, a title
    the checks let through, and an episode number that is an integer of
    at least one. *)
Definition acceptable (episode_data : gmap string field_value) : Prop :=
  present episode_data "source_id" /\
  (exists title, episode_data !! "title" = Some title /\ acceptable_title title) /\
  (exists v, episode_data !! "episode_index" = Some v /\ bad_episode_index v = false).

End EpisodeService.

(** ** [ServiceMetrics] (services/base.py) *)

Module ServiceMetrics.

(** The three dictionaries of a [ServiceMetrics] object.  Durations are
    exact rationals here; the comparisons of [max] and [min] are those of
    the source, the sum and the quotients are taken without rounding. *)
Record metrics : Type := {
  operation_counts : gmap string Z;
  error_counts : gmap string Z;
  response_times : gmap string (list Q)
}.

(** [__init__] *)
Definition init : metrics :=
  {| operation_counts := ∅; error_counts := ∅; response_times := ∅ |}.

(** [record_operation] *)
Definition record_operation (self : metrics) (operation : string) (duration : Q)
    (success : bool) : metrics :=
  {| operation_counts :=
       <[operation := default 0 (operation_counts self !! operation) + 1]>
         (operation_counts self);
     error_counts :=
       if success then error_counts self
       else <[operation := default 0 (error_counts self !! operation) + 1]>
              (error_counts self);
     response_times :=
       <[operation := (default [] (response_times self !! operation) ++ [duration])%list]>
         (response_times self) |}.

(** The built-ins [sum], [max] and [min] on a list of durations. *)
Definition sum_Q (times : list Q) : Q := fold_left Qplus times 0%Q.

Definition max_Q (times : list Q) : Q :=
  match times with
  | [] => 0%Q
  | x :: rest => fold_left (fun a b => if Qle_bool b a then a else b) rest x
  end.

Definition min_Q (times : list Q) : Q :=
  match times with
  | [] => 0%Q
  | x :: rest => fold_left (fun a b => if Qle_bool a b then a else b) rest x
  end.

(** An entry of [metrics["operations"]]. *)
Record operation_metrics : Type := {
  count : Z;
  errors : Z;
  success_rate : Q;
  avg_response_time : Q;
  max_response_time : Q;
  min_response_time : Q
}.

Definition operation_entry (self : metrics) (operation : string) (count : Z)
  : operation_metrics :=
  let error_count := default 0 (error_counts self !! operation) in
  let times := default [] (response_times self !! operation) in
  {| count := count;
     errors := error_count;
     success_rate :=
       if (0 <? count)%Z
       then (inject_Z (count - error_count) / inject_Z count * 100)%Q else 0%Q;
     avg_response_time :=
       match times with
       | [] => 0%Q
       | _ :: _ => (sum_Q times / inject_Z (Z.of_nat (length times)))%Q
       end;
     max_response_time := match times with [] => 0%Q | _ :: _ => max_Q times end;
     min_response_time := match times with [] => 0%Q | _ :: _ => min_Q times end |}.

(** Sum of the values of a dictionary of counts. *)
Definition sum_values (counts : gmap string Z) : Z :=
  map_fold (fun _ n acc => n + acc) 0 counts.

(** [get_metrics]: the two totals and the entry of each operation. *)
Definition get_metrics (self : metrics) : Z * Z * gmap string operation_metrics :=
  (sum_values (operation_counts self),
   sum_values (error_counts self),
   map_imap (fun operation count => Some (operation_entry self operation count))
     (operation_counts self)).

(** A recorded call, and the object after a sequence of calls. *)
Definition call : Type := string * Q * bool.

Definition after_calls (calls : list call) : metrics :=
  fold_left (fun self c => record_operation self c.1.1 c.1.2 c.2) calls init.

(** The calls made for one operation, and the failed ones among them. *)
Definition calls_of (operation : string) (calls : list call) : list call :=
  filter (fun c => c.1.1 = operation) calls.

Definition failed (calls : list call) : list call :=
  filter (fun c => c.2 = false) calls.

End ServiceMetrics.

(** ** Sample rows *)

Module Samples.

Definition comment_at (i : Z) (seconds : Q) (text : string) : Comment :=
  {| id := i; episode_id := 1; cid := ""; p := ""; m := text; t := seconds |}.

(** Three comments with the same text, the third far from the others. *)
Definition same_text : list Comment :=
  [comment_at 1 0 "hi"; comment_at 2 1 "hi"; comment_at 3 100 "hi"].

(** Four comments: the second and fourth repeat the first and third. *)
Definition two_pairs : list Comment :=
  [comment_at 1 0 "ab"; comment_at 2 (1 # 2) "ab";
   comment_at 3 50 "xyz"; comment_at 4 51 "xyz"].

(** The table of an episode in identifier order: a lone comment at the
    start, two close comments later. *)
Definition lone_then_pair : list Comment :=
  [comment_at 1 0 "a"; comment_at 2 100 "b"; comment_at 3 101 "c"].

(** A row with a packed parameter string. *)
Definition packed (i : Z) (params : string) : Comment :=
  {| id := i; episode_id := 1; cid := ""; p := params; m := "text"; t := 0 |}.

(** Three comments of two senders and one whose string is too short. *)
Definition two_senders : list Comment :=
  [packed 1 "1.5,1,25,255,0,0,7,alice"; packed 2 "2.5,1,25,255,0,0,8,bob";
   packed 3 "3.5,4,18,65280,0,0,9,alice"; packed 4 "4.5,1"].

(** A session whose view answers with two colour groups. *)
Definition view_session : EnhancedCommentStatistics.Session := {|
  EnhancedCommentStatistics.view_color_rows := fun _ => Return [(16777215, 5); (255, 2)];
  EnhancedCommentStatistics.view_mode_rows := fun _ => Return [(1, 7)];
  EnhancedCommentStatistics.view_font_size_rows := fun _ => Return [(25, 7)];
  EnhancedCommentStatistics.select_p := fun _ _ => Return []
|}.

(** Answers to the three basic statements for an episode of two comments. *)
Definition two_comment_statements : DanmakuStatistics.BasicStatements := {|
  DanmakuStatistics.count_rows := fun _ => Return (Some 2);
  DanmakuStatistics.average_t := fun _ => Return (Some (47 # 4));
  DanmakuStatistics.minute_rows := fun _ => Return [(0, 2)]
|}.

Definition message (e : pyexn) : string :=
  match e with
  | DatabaseError msg => msg
  | _ => ""
  end.

(** A store of numbers that refuses zero: a batch holding a zero fails at
    the flush, the others are appended. *)
Definition flush_nonzero (st : list nat) (instances : list nat)
  : list nat * option pyexn :=
  if forallb (fun n => negb (n =? 0)%nat) instances
  then ((st ++ instances)%list, None)
  else (st, Some (DatabaseError "constraint failed")).

Definition refresh_same (st : list nat) (instance : nat) : list nat * res nat :=
  (st, Return instance).

(** Repositories kept as the list of the episodes created: the only data
    source is number 1. *)
Import EpisodeService.

Definition source_one (st : list (gmap string field_value)) (resource_id : field_value)
  : list (gmap string field_value) * outcome (option Z) :=
  (st, Done (match resource_id with FInt 1 => Some 1 | _ => None end)).

#[global] Instance field_value_eq_dec : EqDecision field_value.
Proof. solve_decision. Defined.

Definition find_episode (st : list (gmap string field_value))
    (source_id episode_index : field_value)
  : list (gmap string field_value) * outcome (option (gmap string field_value)) :=
  (st, Done (List.find (fun e =>
               bool_decide (e !! "source_id" = Some source_id /\
                            e !! "episode_index" = Some episode_index)) st)).

Definition append_episode (st : list (gmap string field_value))
    (episode_data : gmap string field_value)
  : list (gmap string field_value) * outcome (gmap string field_value) :=
  ((st ++ [episode_data])%list, Done episode_data).

Definition no_failure (st : list (gmap string field_value))
  : list (gmap string field_value) * option exn := (st, None).

(** Three requests: a first episode, one with a blank title, and the
    first episode again. *)
Definition three_requests : list (gmap string field_value) :=
  [ {[ "title" := FStr "Pilot"; "episode_index" := FInt 1 ]};
    {[ "title" := FStr " "; "episode_index" := FInt 2 ]};
    {[ "title" := FStr "Pilot again"; "episode_index" := FInt 1 ]} ].

End Samples.

(** * Properties *)

(** ** Decoding the packed parameter string *)

Section ParseParams.
Import Builtins DanmakuParamsParser.

Lemma py_int_raises s e : py_int s = Raise e -> e = ValueError.
Proof.
  unfold py_int. destruct (take_sign _) as [neg body].
  destruct (int_digits body); congruence.
Qed.

Lemma py_float_raises s e : py_float s = Raise e -> e = ValueError.
Proof.
  unfold py_float. destruct (drop_underscores _ _) as [l|]; [|congruence].
  destruct (take_sign l) as [neg body].
  destruct (special neg body); [congruence|].
  destruct (decimal neg body); congruence.
Qed.

Lemma params_dict_nonempty t m fs c ts p i u : params_dict t m fs c ts p i u <> ∅.
Proof.
  intros H. apply (f_equal (fun d => d !! "time")) in H.
  unfold params_dict in H. rewrite lookup_insert_eq, lookup_empty in H.
  discriminate.
Qed.

Lemma complete_record_nonempty d : complete_record d -> d <> ∅.
Proof.
  intros (t & m & fs & c & ts & p & i & u & ->). apply params_dict_nonempty.
Qed.

(** Split a list known to have eight elements or more into its first
    eight and the rest. *)
Ltac eight_fields parts H :=
  destruct parts as [|?p0 [|?p1 [|?p2 [|?p3 [|?p4 [|?p5 [|?p6 [|?p7 ?rest]]]]]]]];
  simpl in H; try lia.

(** [build] on a list with eight leading fields. *)
Lemma build_eight p0 p1 p2 p3 p4 p5 p6 p7 rest :
  build (p0 :: p1 :: p2 :: p3 :: p4 :: p5 :: p6 :: p7 :: rest) =
    time ← py_float p0; mode ← py_int p1; font_size ← py_int p2;
    color ← py_int p3; timestamp ← py_int p4; pool ← py_int p5;
    Return (params_dict time mode font_size color timestamp pool p6 p7).
Proof. reflexivity. Qed.

Lemma build_outcome parts :
  (8 <= length parts)%nat ->
  (exists d, build parts = Return d /\ complete_record d /\
             numeric_fields_parse parts) \/
  (build parts = Raise ValueError /\ ~ numeric_fields_parse parts).
Proof.
  intros Hlen. eight_fields parts Hlen. rewrite build_eight.
  unfold numeric_fields_parse, parses. simpl.
  destruct (py_float p0) as [t|e0] eqn:E0; simpl.
  2:{ right. rewrite (py_float_raises _ _ E0). split; [done|].
      intros ((p & [= <-] & Hp) & _). by rewrite E0 in Hp. }
  destruct (py_int p1) as [m|e1] eqn:E1; simpl.
  2:{ right. rewrite (py_int_raises _ _ E1). split; [done|].
      intros (_ & (p & [= <-] & Hp) & _). by rewrite E1 in Hp. }
  destruct (py_int p2) as [fs|e2] eqn:E2; simpl.
  2:{ right. rewrite (py_int_raises _ _ E2). split; [done|].
      intros (_ & _ & (p & [= <-] & Hp) & _). by rewrite E2 in Hp. }
  destruct (py_int p3) as [c|e3] eqn:E3; simpl.
  2:{ right. rewrite (py_int_raises _ _ E3). split; [done|].
      intros (_ & _ & _ & (p & [= <-] & Hp) & _). by rewrite E3 in Hp. }
  destruct (py_int p4) as [ts|e4] eqn:E4; simpl.
  2:{ right. rewrite (py_int_raises _ _ E4). split; [done|].
      intros (_ & _ & _ & _ & (p & [= <-] & Hp) & _). by rewrite E4 in Hp. }
  destruct (py_int p5) as [pl|e5] eqn:E5; simpl.
  2:{ right. rewrite (py_int_raises _ _ E5). split; [done|].
      intros (_ & _ & _ & _ & _ & (p & [= <-] & Hp)). by rewrite E5 in Hp. }
  left. eexists. split; [reflexivity|]. split.
  - by exists t, m, fs, c, ts, pl, p6, p7.
  - repeat split; eexists; (split; [reflexivity|]);
      rewrite ?E0, ?E1, ?E2, ?E3, ?E4, ?E5; exact I.
Qed.

(** [build] reads nothing beyond the eighth field. *)
Lemma build_take parts parts' :
  (8 <= length parts)%nat -> take 8 parts' = take 8 parts ->
  (8 <= length parts')%nat /\ build parts' = build parts.
Proof.
  intros Hlen Htake.
  assert (Hlen' : (8 <= length parts')%nat).
  { apply (f_equal length) in Htake. rewrite !length_take in Htake. lia. }
  split; [done|].
  eight_fields parts Hlen. eight_fields parts' Hlen'.
  simpl in Htake. injection Htake as -> -> -> -> -> -> -> ->.
  by rewrite !build_eight.
Qed.

(** C1.  [parse_params_string] never raises.  Its result is either the
    empty dictionary or a dictionary with all eight entries; it is the
    latter exactly when the input splits on commas into eight fields or
    more and the six numeric fields convert; what follows the eighth
    field has no influence on the result. *)
Theorem parse_params_string_complete_iff (params : string) :
  exists d, parse_params_string params = Return d /\
    (d = ∅ \/ complete_record d) /\
    (complete_record d <->
       (8 <= length (split params))%nat /\ numeric_fields_parse (split params)) /\
    (forall params',
       (8 <= length (split params))%nat ->
       take 8 (split params') = take 8 (split params) ->
       parse_params_string params' = Return d).
Proof.
  unfold parse_params_string.
  destruct (bool_decide_reflect (8 <= length (split params))%nat) as [Hlen|Hlen].
  - assert (Hext : forall r params',
               build (split params) = r ->
               take 8 (split params') = take 8 (split params) ->
               (if bool_decide (8 <= length (split params'))%nat
                then match build (split params') with
                     | Return d => Return d
                     | Raise ValueError | Raise IndexError => Return ∅
                     | Raise e => Raise e
                     end
                else Return ∅) =
               match r with
               | Return d => Return d
               | Raise ValueError | Raise IndexError => Return ∅
               | Raise e => Raise e
               end).
    { intros r params' <- Htake.
      destruct (build_take _ _ Hlen Htake) as [Hlen' ->].
      by rewrite bool_decide_eq_true_2. }
    destruct (build_outcome _ Hlen) as [(d & Hb & Hc & Hn)|[Hb Hn]].
    + exists d. rewrite Hb. split; [done|]. split; [by right|].
      split; [tauto|]. intros params' _ Htake. by rewrite (Hext _ _ Hb Htake).
    + exists ∅. rewrite Hb. split; [done|]. split; [by left|]. split.
      * split; [|tauto]. intros Hc. by apply complete_record_nonempty in Hc.
      * intros params' _ Htake. by rewrite (Hext _ _ Hb Htake).
  - exists ∅. split; [done|]. split; [by left|]. split.
    + split; [|tauto]. intros Hc. by apply complete_record_nonempty in Hc.
    + intros params' Hlen'. contradiction.
Qed.

(** A non-empty result comes from eight leading fields whose numeric
    conversions all returned. *)
Lemma parse_success_inv params d :
  parse_params_string params = Return d -> d <> ∅ ->
  exists p0 p1 p2 p3 p4 p5 p6 p7 rest time mode font_size color timestamp pool,
    split params = p0 :: p1 :: p2 :: p3 :: p4 :: p5 :: p6 :: p7 :: rest /\
    py_float p0 = Return time /\ py_int p1 = Return mode /\
    py_int p2 = Return font_size /\ py_int p3 = Return color /\
    py_int p4 = Return timestamp /\ py_int p5 = Return pool /\
    d = params_dict time mode font_size color timestamp pool p6 p7.
Proof.
  unfold parse_params_string.
  destruct (bool_decide_reflect (8 <= length (split params))%nat) as [Hlen|Hlen];
    [|congruence].
  destruct (split params) as [|p0 [|p1 [|p2 [|p3 [|p4 [|p5 [|p6 [|p7 rest]]]]]]]];
    simpl in Hlen; try lia.
  rewrite build_eight.
  destruct (py_float p0) as [time|e0] eqn:E0; simpl;
    [|rewrite (py_float_raises _ _ E0); congruence].
  destruct (py_int p1) as [mode|e1] eqn:E1; simpl;
    [|rewrite (py_int_raises _ _ E1); congruence].
  destruct (py_int p2) as [font_size|e2] eqn:E2; simpl;
    [|rewrite (py_int_raises _ _ E2); congruence].
  destruct (py_int p3) as [color|e3] eqn:E3; simpl;
    [|rewrite (py_int_raises _ _ E3); congruence].
  destruct (py_int p4) as [timestamp|e4] eqn:E4; simpl;
    [|rewrite (py_int_raises _ _ E4); congruence].
  destruct (py_int p5) as [pool|e5] eqn:E5; simpl;
    [|rewrite (py_int_raises _ _ E5); congruence].
  intros [= <-] _.
  by exists p0, p1, p2, p3, p4, p5, p6, p7, rest,
    time, mode, font_size, color, timestamp, pool.
Qed.

Lemma parse_too_short params :
  (length (split params) < 8)%nat -> parse_params_string params = Return ∅.
Proof.
  intros Hlen. unfold parse_params_string.
  rewrite bool_decide_eq_false_2 by lia. done.
Qed.

(** C3, as the code has it.  A string with exactly seven fields is a
    decode failure, the empty dictionary, whatever its numeric fields;
    all eight fields are mandatory: a successful decode has an eighth
    field and stores it, unchanged, under [user_hash]. *)
Theorem user_hash_field_mandatory (params : string) :
  (length (split params) = 7%nat -> parse_params_string params = Return ∅) /\
  (forall d, parse_params_string params = Return d -> d <> ∅ ->
     exists user_hash, split params !! 7%nat = Some user_hash /\
                       d !! "user_hash" = Some (VStr user_hash)).
Proof.
  split.
  - intros Hlen. apply parse_too_short. lia.
  - intros d Hd Hne.
    destruct (parse_success_inv _ _ Hd Hne)
      as (p0 & p1 & p2 & p3 & p4 & p5 & p6 & p7 & rest & time & mode & fs & c
          & ts & pl & -> & _ & _ & _ & _ & _ & _ & ->).
    exists p7. split; [done|]. unfold params_dict.
    by repeat (rewrite lookup_insert_ne by done); rewrite lookup_insert_eq.
Qed.

(** C4, as the code has it.  No range is checked: whenever decoding
    succeeds, the stored colour is exactly the integer that [int] reads
    from the fourth field, whatever its sign or size. *)
Theorem color_stored_unchecked (params : string) (d : gmap string pyval) :
  parse_params_string params = Return d -> d <> ∅ ->
  exists field color, split params !! 3%nat = Some field /\
                      py_int field = Return color /\
                      d !! "color" = Some (VInt color).
Proof.
  intros Hd Hne.
  destruct (parse_success_inv _ _ Hd Hne)
    as (p0 & p1 & p2 & p3 & p4 & p5 & p6 & p7 & rest & time & mode & fs & c
        & ts & pl & -> & _ & _ & _ & Hc & _ & _ & ->).
  exists p3, c. split; [done|]. split; [done|]. unfold params_dict.
  by repeat (rewrite lookup_insert_ne by done); rewrite lookup_insert_eq.
Qed.

Lemma split_chars_comma_free l :
  Forall (Forall (fun c => Chars.is_comma c = false)) (split_chars l).
Proof.
  induction l as [|c r IH]; simpl; [by repeat constructor|].
  destruct (Chars.is_comma c) eqn:Hc; [by constructor|].
  destruct (split_chars r) as [|h tl]; [by repeat constructor|].
  inversion IH; subst. by repeat constructor.
Qed.

Lemma split_comma_free params part : part ∈ split params -> comma_free part.
Proof.
  unfold split, comma_free. intros Hin.
  apply list_elem_of_fmap in Hin as (l & -> & Hl).
  rewrite list_ascii_of_string_of_list_ascii.
  pose proof (split_chars_comma_free (list_ascii_of_string params)) as Hall.
  rewrite Forall_forall in Hall. by apply Hall.
Qed.

(** The two text fields of a decoded record never contain a comma: a
    record with a comma in [danmaku_id] or [user_hash] is the decoding of
    no packed string. *)
Theorem decoded_text_fields_comma_free (params : string) (d : gmap string pyval)
    (danmaku_id user_hash : string) :
  parse_params_string params = Return d ->
  d !! "danmaku_id" = Some (VStr danmaku_id) ->
  d !! "user_hash" = Some (VStr user_hash) ->
  comma_free danmaku_id /\ comma_free user_hash.
Proof.
  intros Hd Hid Huh.
  assert (Hne : d <> ∅) by (intros ->; by rewrite lookup_empty in Hid).
  destruct (parse_success_inv _ _ Hd Hne)
    as (p0 & p1 & p2 & p3 & p4 & p5 & p6 & p7 & rest & time & mode & fs & c
        & ts & pl & Hsplit & _ & _ & _ & _ & _ & _ & ->).
  unfold params_dict in Hid, Huh.
  repeat (rewrite lookup_insert_ne in Hid by done).
  repeat (rewrite lookup_insert_ne in Huh by done).
  rewrite lookup_insert_eq in Hid, Huh. injection Hid as <-. injection Huh as <-.
  split; apply (split_comma_free params); rewrite Hsplit; set_solver.
Qed.

End ParseParams.

(** ** Colour formatting *)

Section ColorHex.
Import DanmakuParamsParser.

Lemma hex_digit_cases (k : Z) :
  0 <= k < 16 ->
  k = 0 \/ k = 1 \/ k = 2 \/ k = 3 \/ k = 4 \/ k = 5 \/ k = 6 \/ k = 7 \/
  k = 8 \/ k = 9 \/ k = 10 \/ k = 11 \/ k = 12 \/ k = 13 \/ k = 14 \/ k = 15.
Proof. lia. Qed.

Lemma hex_digit_value_digit k : 0 <= k < 16 -> hex_digit_value (hex_digit k) = k.
Proof.
  intros H. destruct (hex_digit_cases k H) as
    [->|[->|[->|[->|[->|[->|[->|[->|[->|[->|[->|[->|[->|[->|[->| ->]]]]]]]]]]]]]]];
    reflexivity.
Qed.

Lemma hex_digit_upper k : 0 <= k < 16 -> is_upper_hex (hex_digit k) = true.
Proof.
  intros H. destruct (hex_digit_cases k H) as
    [->|[->|[->|[->|[->|[->|[->|[->|[->|[->|[->|[->|[->|[->|[->| ->]]]]]]]]]]]]]]];
    reflexivity.
Qed.

Lemma hex_digits_acc fuel n acc :
  hex_digits fuel n acc = (hex_digits fuel n [] ++ acc)%list.
Proof.
  revert n acc. induction fuel as [|fuel IH]; intros n acc; simpl; [done|].
  destruct (n <? 16)%Z; [done|].
  rewrite (IH _ (_ :: acc)), (IH _ [_]), <- app_assoc. done.
Qed.

Lemma hex_digits_step fuel n :
  hex_digits (S fuel) n [] =
    if (n <? 16)%Z then [hex_digit (n mod 16)]
    else (hex_digits fuel (n / 16) [] ++ [hex_digit (n mod 16)])%list.
Proof. simpl. destruct (n <? 16)%Z; [done|]. apply hex_digits_acc. Qed.

Lemma hex_value_snoc ds c :
  hex_value (ds ++ [c]) = 16 * hex_value ds + hex_digit_value c.
Proof. unfold hex_value. by rewrite fold_left_app. Qed.

(** With fuel for every binary digit of [n], the digits are upper-case
    hexadecimal digits and denote [n]; their number is the least [k]
    with [n < 16^k], and at least one. *)
Lemma hex_digits_spec fuel n :
  0 <= n < 2 ^ Z.of_nat fuel -> (1 <= fuel)%nat ->
  let ds := hex_digits fuel n [] in
  hex_value ds = n /\ Forall (fun c => is_upper_hex c = true) ds /\
  (1 <= length ds)%nat /\
  (forall k : nat, (1 <= k)%nat -> n < 16 ^ Z.of_nat k -> (length ds <= k)%nat) /\
  (forall k : nat, 16 ^ Z.of_nat k <= n -> (k < length ds)%nat).
Proof.
  revert n. induction fuel as [|fuel IH]; intros n Hn Hfuel; [lia|].
  cbv zeta. rewrite hex_digits_step.
  assert (Hmod : 0 <= n mod 16 < 16) by (apply Z.mod_pos_bound; lia).
  destruct (Z.ltb_spec n 16) as [Hlt|Hge].
  - rewrite Z.mod_small by lia.
    split; [unfold hex_value; simpl; rewrite hex_digit_value_digit; lia|].
    split; [repeat constructor; apply hex_digit_upper; lia|].
    split; [simpl; lia|]. split; [simpl; lia|].
    intros k Hk. simpl. destruct k as [|k]; [lia|].
    assert (16 <= 16 ^ Z.of_nat (S k)).
    { rewrite Nat2Z.inj_succ, Z.pow_succ_r by lia.
      assert (0 < 16 ^ Z.of_nat k) by (apply Z.pow_pos_nonneg; lia). lia. }
    lia.
  - assert (Hdiv : 0 <= n / 16 < 2 ^ Z.of_nat fuel).
    { split; [apply Z.div_pos; lia|].
      rewrite Nat2Z.inj_succ, Z.pow_succ_r in Hn by lia.
      apply Z.div_lt_upper_bound; lia. }
    assert (Hfuel' : (1 <= fuel)%nat).
    { destruct fuel; [|lia]. simpl in Hn. lia. }
    destruct (IH _ Hdiv Hfuel') as (Hv & Hu & H1 & Hub & Hlb).
    split.
    { rewrite hex_value_snoc, Hv, hex_digit_value_digit by done.
      pose proof (Z.div_mod n 16). lia. }
    split.
    { apply Forall_app. split; [done|].
      repeat constructor. by apply hex_digit_upper. }
    rewrite length_app. simpl.
    split; [lia|]. split.
    + intros k Hk Hnk. destruct k as [|k]; [lia|].
      destruct k as [|k]; [simpl in Hnk; lia|].
      assert (length (hex_digits fuel (n / 16) []) <= S k)%nat; [|lia].
      apply Hub; [lia|].
      rewrite (Nat2Z.inj_succ (S k)), Z.pow_succ_r in Hnk by lia.
      apply Z.div_lt_upper_bound; lia.
    + intros k Hnk. destruct k as [|k]; [lia|].
      assert (k < length (hex_digits fuel (n / 16) []))%nat; [|lia].
      apply Hlb. rewrite Nat2Z.inj_succ, Z.pow_succ_r in Hnk by lia.
      apply Z.div_le_lower_bound; lia.
Qed.

Lemma to_hex_spec n :
  0 <= n ->
  hex_value (to_hex n) = n /\ Forall (fun c => is_upper_hex c = true) (to_hex n) /\
  (1 <= length (to_hex n))%nat /\
  (forall k : nat, (1 <= k)%nat -> n < 16 ^ Z.of_nat k -> (length (to_hex n) <= k)%nat) /\
  (forall k : nat, 16 ^ Z.of_nat k <= n -> (k < length (to_hex n))%nat).
Proof.
  intros Hn. unfold to_hex. apply hex_digits_spec; [|lia].
  split; [done|]. rewrite Nat2Z.inj_succ, Z2Nat.id by apply Z.log2_nonneg.
  destruct (Z.eq_dec n 0) as [->|Hne]; [done|].
  apply Z.log2_spec. lia.
Qed.

Lemma hex_value_zeros k ds :
  hex_value (repeat "0"%char k ++ ds) = hex_value ds.
Proof.
  unfold hex_value. rewrite fold_left_app.
  replace (fold_left (fun acc c => 16 * acc + hex_digit_value c)
             (repeat "0"%char k) 0) with 0; [done|].
  induction k as [|k IH]; simpl; [done|]. exact IH.
Qed.

Lemma format_06X_nonneg n :
  0 <= n -> format_06X n = (repeat "0"%char (6 - length (to_hex n)) ++ to_hex n)%list.
Proof.
  intros Hn. unfold format_06X.
  destruct (Z.ltb_spec n 0); [lia|]. by rewrite Z.abs_eq.
Qed.

(** C5, as the code has it.  For a colour in [0, 0xFFFFFF] the result is
    [#] followed by exactly six upper-case hexadecimal digits that denote
    the colour, zeros in front; for a larger colour all its digits are
    printed, more than six of them; the two sample values print as the
    specification says. *)
Theorem get_color_hex_format :
  (forall color, 0 <= color <= 16777215 ->
     exists ds, get_color_hex color = String "#"%char (string_of_list_ascii ds) /\
                length ds = 6%nat /\
                Forall (fun c => is_upper_hex c = true) ds /\
                hex_value ds = color) /\
  (forall color, 16777215 < color ->
     exists ds, get_color_hex color = String "#"%char (string_of_list_ascii ds) /\
                (6 < length ds)%nat /\
                Forall (fun c => is_upper_hex c = true) ds /\
                hex_value ds = color) /\
  get_color_hex 16777215 = "#FFFFFF" /\
  get_color_hex 255 = "#0000FF".
Proof.
  split; [|split; [|split; reflexivity]].
  - intros color Hc.
    destruct (to_hex_spec color) as (Hv & Hu & H1 & Hub & _); [lia|].
    assert (Hlen : (length (to_hex color) <= 6)%nat) by (apply Hub; simpl; lia).
    exists (format_06X color). split; [done|].
    rewrite format_06X_nonneg by lia.
    split; [rewrite length_app, repeat_length; lia|].
    split; [|by rewrite hex_value_zeros].
    apply Forall_app. split; [|done].
    apply Forall_forall. intros c Hin. apply list_elem_of_In, repeat_spec in Hin. by subst.
  - intros color Hc.
    destruct (to_hex_spec color) as (Hv & Hu & H1 & _ & Hlb); [lia|].
    assert (Hlen : (6 < length (to_hex color))%nat) by (apply Hlb; simpl; lia).
    exists (to_hex color). split.
    + unfold get_color_hex. rewrite format_06X_nonneg by lia.
      replace (6 - length (to_hex color))%nat with 0%nat by lia. done.
    + done.
Qed.

Lemma get_color_hex_format_witness :
  exists ds, get_color_hex 65280 = String "#"%char (string_of_list_ascii ds) /\
             length ds = 6%nat /\
             Forall (fun c => is_upper_hex c = true) ds /\
             hex_value ds = 65280.
Proof. apply (proj1 get_color_hex_format 65280). lia. Defined.

(** A 32-bit colour above [0xFFFFFF] prints seven digits, against the
    claim of C5. *)
Lemma get_color_hex_seven_digits :
  0 <= 16777216 < 2 ^ 32 /\ get_color_hex 16777216 = "#1000000" /\
  String.length (get_color_hex 16777216) = 8%nat.
Proof. split; [lia|]. split; reflexivity. Qed.

End ColorHex.

(** ** Statistics: view path and Python path *)

Section StatisticsFallback.
Import Builtins DanmakuParamsParser EnhancedCommentStatistics.

Variable get_mode_name : Z -> string.
Variable get_font_size_name : Z -> string.

Lemma parse_params_string_returns params :
  exists d, parse_params_string params = Return d /\ (d = ∅ \/ complete_record d).
Proof.
  unfold parse_params_string.
  destruct (bool_decide_reflect (8 <= length (split params))%nat) as [Hlen|Hlen];
    [|by exists ∅; auto].
  destruct (build_outcome _ Hlen) as [(d & -> & Hc & _)|[-> _]];
    [exists d|exists ∅]; auto.
Qed.

(** The three fields that are tallied hold integers in every complete
    record. *)
Lemma complete_record_int_field d field :
  field ∈ ["color"; "mode"; "font_size"] -> complete_record d ->
  exists v, d !! field = Some (VInt v).
Proof.
  intros Hf (time & mode & fs & c & ts & pl & i & u & ->).
  unfold params_dict.
  repeat (apply elem_of_cons in Hf as [->|Hf]);
    [exists c|exists mode|exists fs|by apply elem_of_nil in Hf];
    by repeat (rewrite lookup_insert_ne by done); rewrite lookup_insert_eq.
Qed.

(** The counting loop never raises on these fields. *)
Lemma tally_returns field label rows counts :
  field ∈ ["color"; "mode"; "font_size"] ->
  returned (tally field label rows counts).
Proof.
  intros Hf. revert counts. induction rows as [|params_str rest IH];
    intros counts; simpl; [exact I|].
  destruct (parse_params_string_returns params_str) as (d & -> & [->|Hc]); simpl.
  - rewrite lookup_empty. apply IH.
  - destruct (complete_record_int_field _ _ Hf Hc) as [v ->]. apply IH.
Qed.

(** The view path raises exactly when one of its three statements does. *)
Lemma view_path_raised session episode :
  raised (view_path get_mode_name get_font_size_name session episode) <->
  raised (view_color_rows session episode) \/
  raised (view_mode_rows session episode) \/
  raised (view_font_size_rows session episode).
Proof.
  unfold view_path, get_color_distribution_via_view,
    get_mode_distribution_via_view, get_font_size_distribution_via_view.
  destruct (view_color_rows session episode);
    destruct (view_mode_rows session episode);
    destruct (view_font_size_rows session episode); simpl; tauto.
Qed.

(** Once the rows are fetched the Python path returns, tagged with its
    method and the limit it was given. *)
Lemma python_path_returns session episode limit rows :
  select_p session episode limit = Return rows ->
  exists stats,
    python_path get_mode_name get_font_size_name session episode limit = Return stats /\
    method stats = "python_parsing" /\ sample_limit stats = Some limit /\
    tally "color" get_color_hex rows ∅ = Return (color_distribution stats) /\
    tally "mode" get_mode_name rows ∅ = Return (mode_distribution stats) /\
    tally "font_size" get_font_size_name rows ∅ = Return (font_size_distribution stats).
Proof.
  intros Hrows.
  unfold python_path, get_color_distribution_via_python,
    get_mode_distribution_via_python.
  rewrite Hrows. simpl.
  pose proof (tally_returns "color" get_color_hex rows ∅ ltac:(set_solver)) as Hc.
  pose proof (tally_returns "mode" get_mode_name rows ∅ ltac:(set_solver)) as Hm.
  pose proof (tally_returns "font_size" get_font_size_name rows ∅ ltac:(set_solver)) as Hs.
  destruct (tally "color" get_color_hex rows ∅) as [cd|]; [|destruct Hc].
  destruct (tally "mode" get_mode_name rows ∅) as [md|]; [|destruct Hm].
  destruct (tally "font_size" get_font_size_name rows ∅) as [sd|];
    [|destruct Hs].
  simpl. eexists. split; [reflexivity|]. simpl. done.
Qed.

(** C2, as the code has it.  When a statement of the view path raises,
    the exception is swallowed and the outcome is that of the Python
    path; if the Python path's row query answers, the call returns the
    Python path's statistics, tagged [python_parsing] and carrying the
    [python_limit] it was called with. *)
Theorem view_failure_falls_back (session : Session) (episode python_limit : Z) :
  raised (view_color_rows session episode) \/
  raised (view_mode_rows session episode) \/
  raised (view_font_size_rows session episode) ->
  get_comprehensive_statistics get_mode_name get_font_size_name
    session episode true python_limit =
  python_path get_mode_name get_font_size_name session episode python_limit /\
  (forall rows, select_p session episode python_limit = Return rows ->
     exists stats,
       get_comprehensive_statistics get_mode_name get_font_size_name
         session episode true python_limit = Return stats /\
       method stats = "python_parsing" /\
       sample_limit stats = Some python_limit /\
       tally "color" get_color_hex rows ∅ = Return (color_distribution stats) /\
       tally "mode" get_mode_name rows ∅ = Return (mode_distribution stats) /\
       tally "font_size" get_font_size_name rows ∅
         = Return (font_size_distribution stats)).
Proof.
  intros Hraised. apply view_path_raised in Hraised.
  assert (Heq : get_comprehensive_statistics get_mode_name get_font_size_name
                  session episode true python_limit =
                python_path get_mode_name get_font_size_name
                  session episode python_limit).
  { unfold get_comprehensive_statistics.
    destruct (view_path _ _ _ _); [destruct Hraised|done]. }
  split; [done|]. intros rows Hrows. rewrite Heq.
  by apply python_path_returns.
Qed.

Lemma total_count_incr (counts : gmap string Z) k :
  total_count (<[k := default 0 (counts !! k) + 1]> counts) = total_count counts + 1.
Proof.
  unfold total_count.
  destruct (counts !! k) as [v|] eqn:Hk; simpl.
  - rewrite <- insert_delete_eq.
    rewrite map_fold_insert_L; [|intros; lia|apply lookup_delete_eq].
    rewrite (map_fold_delete_L _ _ k v counts); [lia|intros; lia|done].
  - rewrite map_fold_insert_L; [lia|intros; lia|done].
Qed.

Lemma tally_total field label rows counts result :
  field ∈ ["color"; "mode"; "font_size"] ->
  tally field label rows counts = Return result ->
  total_count result = total_count counts + Z.of_nat (length (filter decodes rows)).
Proof.
  intros Hf. revert counts. induction rows as [|params_str rest IH];
    intros counts; simpl.
  { intros [= <-]. lia. }
  destruct (parse_params_string_returns params_str) as (d & Hd & [->|Hc]);
    rewrite Hd; simpl.
  - rewrite lookup_empty. intros Hres.
    rewrite filter_cons_False; [by apply IH|].
    unfold decodes. rewrite Hd. by rewrite bool_decide_eq_true_2.
  - destruct (complete_record_int_field _ _ Hf Hc) as [v ->]. intros Hres.
    rewrite filter_cons_True.
    2:{ unfold decodes. rewrite Hd.
        by rewrite bool_decide_eq_false_2 by by apply complete_record_nonempty. }
    rewrite (IH _ Hres), total_count_incr. simpl length. lia.
Qed.

(** Conservation on the Python path: the counts of a distribution add up
    to the number of fetched rows that decode; rows that do not decode are
    left out, and the sum never exceeds the number of rows. *)
Theorem tally_counts_decoded_rows (field : string) (label : Z -> string)
    (rows : list string) (result : gmap string Z) :
  field ∈ ["color"; "mode"; "font_size"] ->
  tally field label rows ∅ = Return result ->
  total_count result = Z.of_nat (length (filter decodes rows)) /\
  total_count result <= Z.of_nat (length rows).
Proof.
  intros Hf Hres. pose proof (tally_total _ _ _ _ _ Hf Hres) as Htot.
  unfold total_count at 2 in Htot. rewrite map_fold_empty in Htot.
  split; [lia|]. rewrite Htot.
  pose proof (length_filter decodes rows). lia.
Qed.

End StatisticsFallback.

(** ** Similarity of two comments *)

Section Similarity.
Import DanmakuService.

Lemma char_set_nonempty s : s <> "" -> size (char_set s) <> 0%nat.
Proof.
  intros Hs. destruct s as [|c s]; [done|].
  apply size_non_empty_iff. intros Hempty.
  assert (c ∈ char_set (String c s)) as Hin; [|set_solver].
  unfold char_set. simpl. set_solver.
Qed.

Lemma of_nat_nonzero n : n <> 0%nat -> ~ (of_nat n == 0)%Q.
Proof.
  intros Hn Hq. unfold of_nat, inject_Z, Qeq in Hq. simpl in Hq. lia.
Qed.

Lemma py_max_Qmax a b : (py_max a b == Qmax a b)%Q.
Proof.
  unfold py_max. destruct (Qle_bool b a) eqn:Hle.
  - apply Qle_bool_iff in Hle. symmetry. by apply Q.max_l.
  - symmetry. apply Q.max_r. apply Qlt_le_weak, Qnot_le_lt.
    intros Hba. apply Qle_bool_iff in Hba. congruence.
Qed.

(** Outside the pair of empty strings, [_string_similarity] is the
    Jaccard index of the two character sets. *)
Lemma string_similarity_jaccard s1 s2 :
  s1 <> "" \/ s2 <> "" ->
  (_string_similarity s1 s2 == jaccard (char_set s1) (char_set s2))%Q.
Proof.
  intros Hne. unfold _string_similarity, jaccard.
  destruct (bool_decide_reflect (s1 = s2)) as [<-|Hdiff].
  - assert (Hs : s1 <> "") by tauto.
    replace (char_set s1 ∩ char_set s1) with (char_set s1) by set_solver.
    replace (char_set s1 ∪ char_set s1) with (char_set s1) by set_solver.
    unfold Qdiv. rewrite Qmult_inv_r; [done|].
    by apply of_nat_nonzero, char_set_nonempty.
  - destruct (bool_decide_reflect (s1 = "")) as [->|H1]; simpl.
    { replace (char_set "" ∩ char_set s2) with (∅ : gset ascii) by set_solver.
      rewrite size_empty. unfold Qdiv, of_nat. simpl. by rewrite Qmult_0_l. }
    destruct (bool_decide_reflect (s2 = "")) as [->|H2]; simpl.
    { replace (char_set s1 ∩ char_set "") with (∅ : gset ascii) by set_solver.
      rewrite size_empty. unfold Qdiv, of_nat. simpl. by rewrite Qmult_0_l. }
    rewrite bool_decide_eq_true_2; [done|].
    apply size_non_empty_iff. intros Hempty.
    apply (char_set_nonempty s1 H1), size_empty_iff. set_solver.
Qed.

(** C7, amended for the pair of empty texts.  The similarity of two
    comments is [0.8] times the content similarity plus [0.2] times the
    time similarity.  The time similarity is the larger of [0] and
    [1 - |t1 - t2| / 5].  The content similarity is [1] for identical
    texts, two empty texts included; it is [0] when the texts differ and
    one of them is empty; and in every case but that of two empty texts
    it is the Jaccard index of the two sets of characters. *)
Theorem danmaku_similarity_formula (danmaku1 danmaku2 : Comment) :
  let content_similarity := _string_similarity (m danmaku1) (m danmaku2) in
  let time_similarity := Qmax 0 (1 - Qabs (t danmaku1 - t danmaku2) / 5) in
  (_calculate_danmaku_similarity danmaku1 danmaku2
     == (8 # 10) * content_similarity + (2 # 10) * time_similarity)%Q /\
  (m danmaku1 = m danmaku2 -> content_similarity = 1%Q) /\
  (m danmaku1 <> m danmaku2 -> m danmaku1 = "" \/ m danmaku2 = "" ->
     content_similarity = 0%Q) /\
  (m danmaku1 <> "" \/ m danmaku2 <> "" ->
     (content_similarity == jaccard (char_set (m danmaku1)) (char_set (m danmaku2)))%Q).
Proof.
  cbv zeta. split; [|split; [|split]].
  - unfold _calculate_danmaku_similarity. rewrite py_max_Qmax. ring.
  - intros Heq. unfold _string_similarity. by rewrite bool_decide_eq_true_2.
  - intros Hdiff Hempty. unfold _string_similarity.
    rewrite bool_decide_eq_false_2 by done.
    destruct Hempty as [->| ->]; simpl; [done|].
    by destruct (bool_decide (m danmaku1 = "")).
  - apply string_similarity_jaccard.
Qed.

End Similarity.

(** ** Duplicate groups *)

Section DuplicateGroups.
Import DanmakuService.

Variable similarity_threshold : Q.

Abbreviation dup a := (fun c => is_duplicate similarity_threshold a c = true).
Abbreviation nodup a := (fun c => is_duplicate similarity_threshold a c <> true).

(** *** The specification's grouping *)

Lemma greedy_groups_fuel_enough fuel comments :
  (length comments <= fuel)%nat ->
  greedy_groups_fuel similarity_threshold fuel comments =
  greedy_groups_fuel similarity_threshold (length comments) comments.
Proof.
  revert fuel. induction comments as [comments IH] using (induction_ltof1 _ length).
  unfold ltof in IH. intros fuel Hfuel.
  destruct comments as [|anchor later]; [by destruct fuel|].
  destruct fuel as [|fuel]; [simpl in Hfuel; lia|]. simpl in *.
  assert (Hlen : (length (filter (nodup anchor) later) <= length later)%nat)
    by apply length_filter.
  rewrite (IH (filter (nodup anchor) later)) by lia.
  rewrite (IH (filter (nodup anchor) later) ltac:(lia) (length later)) by lia.
  done.
Qed.

Lemma greedy_groups_cons anchor later :
  greedy_groups similarity_threshold (anchor :: later) =
    match filter (dup anchor) later with
    | [] => greedy_groups similarity_threshold (filter (nodup anchor) later)
    | members =>
        (anchor :: members)
          :: greedy_groups similarity_threshold (filter (nodup anchor) later)
    end.
Proof.
  unfold greedy_groups. simpl.
  rewrite greedy_groups_fuel_enough by apply length_filter.
  by destruct (filter (dup anchor) later).
Qed.

Lemma greedy_groups_anchored fuel comments :
  Forall (anchored similarity_threshold)
    (greedy_groups_fuel similarity_threshold fuel comments).
Proof.
  revert comments. induction fuel as [|fuel IH]; intros comments; simpl;
    [by destruct comments|].
  destruct comments as [|anchor later]; [done|].
  destruct (filter (dup anchor) later) as [|c members] eqn:Hmem; [apply IH|].
  constructor; [|apply IH].
  exists anchor, (c :: members). split; [done|]. split; [done|].
  rewrite <- Hmem. apply Forall_forall. intros x Hx.
  by apply list_elem_of_filter in Hx as [? _].
Qed.

(** The groups, laid end to end, take each comment of the input at most
    as often as the input has it. *)
Lemma greedy_groups_submseteq fuel comments :
  concat (greedy_groups_fuel similarity_threshold fuel comments) ⊆+ comments.
Proof.
  revert comments. induction fuel as [|fuel IH]; intros comments; simpl;
    [destruct comments; apply submseteq_nil_l|].
  destruct comments as [|anchor later]; [done|].
  pose proof (IH (filter (nodup anchor) later)) as Hrest.
  destruct (filter (dup anchor) later) as [|c members] eqn:Hmem.
  - apply submseteq_cons. etrans; [exact Hrest|].
    apply sublist_submseteq, sublist_filter.
  - rewrite <- Hmem. simpl. apply submseteq_skip.
    etrans; [apply submseteq_skips_l, Hrest|].
    apply Permutation_submseteq, filter_app_complement.
Qed.

(** *** The loops of the source *)

Lemma unprocessed_from_agree j items (P P' : gset nat) :
  (forall k, (j <= k)%nat -> k ∈ P <-> k ∈ P') ->
  unprocessed_from j items P = unprocessed_from j items P'.
Proof.
  revert j. induction items as [|c rest IH]; intros j Hagree; simpl; [done|].
  rewrite (IH (S j)) by (intros k Hk; apply Hagree; lia).
  destruct (bool_decide_reflect (j ∈ P)) as [Hin|Hin];
    destruct (bool_decide_reflect (j ∈ P')) as [Hin'|Hin']; try done;
    exfalso; apply (Hagree j) in Hin || apply (Hagree j) in Hin'; done || lia.
Qed.

Lemma unprocessed_from_empty j items : unprocessed_from j items ∅ = items.
Proof.
  revert j. induction items as [|c rest IH]; intros j; simpl; [done|].
  rewrite bool_decide_eq_false_2 by set_solver. by rewrite IH.
Qed.

(** The inner loop appends to the group the unprocessed comments that
    pass the test against [danmaku1], marks them, and leaves unmarked
    the unprocessed ones that fail it. *)
Lemma inner_loop_spec danmaku1 rest j group (P : gset nat) :
  exists P' : gset nat,
    inner_loop similarity_threshold danmaku1 j rest group P =
      ((group ++ filter (dup danmaku1) (unprocessed_from j rest P))%list, P') /\
    unprocessed_from j rest P' =
      filter (nodup danmaku1) (unprocessed_from j rest P) /\
    (forall k, (k < j)%nat -> k ∈ P' <-> k ∈ P) /\
    P ⊆ P'.
Proof.
  revert j group P. induction rest as [|danmaku2 rest IH]; intros j group P; simpl.
  { exists P. by rewrite app_nil_r. }
  destruct (bool_decide_reflect (j ∈ P)) as [Hin|Hin].
  - destruct (IH (S j) group P) as (P' & -> & Hun & Hlow & Hsub).
    exists P'. split; [done|]. split.
    + rewrite bool_decide_eq_true_2 by set_solver. done.
    + split; [|done]. intros k Hk. apply Hlow. lia.
  - destruct (is_duplicate similarity_threshold danmaku1 danmaku2) eqn:Hdup.
    + destruct (IH (S j) (group ++ [danmaku2])%list (P ∪ {[j]}))
        as (P' & -> & Hun & Hlow & Hsub).
      assert (Hsame : unprocessed_from (S j) rest (P ∪ {[j]}) =
                      unprocessed_from (S j) rest P).
      { apply unprocessed_from_agree. intros k Hk.
        rewrite elem_of_union, elem_of_singleton. split; [|tauto].
        intros [?| ->]; [done|lia]. }
      rewrite Hsame in *.
      exists P'. split.
      { rewrite filter_cons_True by done. by rewrite <- app_assoc. }
      split.
      { rewrite bool_decide_eq_true_2 by set_solver.
        rewrite filter_cons_False by (intros H; by apply H). done. }
      split; [|set_solver].
      intros k Hk. rewrite Hlow by lia. rewrite elem_of_union, elem_of_singleton.
      split; [|tauto]. intros [?| ->]; [done|lia].
    + destruct (IH (S j) group P) as (P' & -> & Hun & Hlow & Hsub).
      exists P'. split.
      { rewrite filter_cons_False by (rewrite Hdup; done). done. }
      split.
      { rewrite bool_decide_eq_false_2 by (rewrite Hlow by lia; done).
        rewrite filter_cons_True by (rewrite Hdup; done). by rewrite Hun. }
      split; [|done]. intros k Hk. apply Hlow. lia.
Qed.

(** The outer loop adds to [duplicates] the specification's groups of the
    comments still unprocessed. *)
Lemma outer_loop_spec items i duplicates (P : gset nat) :
  (outer_loop similarity_threshold i items duplicates P).1 =
  (duplicates ++
     greedy_groups similarity_threshold (unprocessed_from i items P))%list.
Proof.
  revert i duplicates P. induction items as [|danmaku1 rest IH];
    intros i duplicates P; simpl.
  { by rewrite app_nil_r. }
  destruct (bool_decide_reflect (i ∈ P)) as [Hin|Hin]; [apply IH|].
  destruct (inner_loop_spec danmaku1 rest (S i) [danmaku1] P)
    as (P' & -> & Hun & Hlow & Hsub).
  rewrite IH, greedy_groups_cons.
  assert (Hsame : unprocessed_from (S i) rest (P' ∪ {[i]}) =
                  unprocessed_from (S i) rest P').
  { apply unprocessed_from_agree. intros k Hk.
    rewrite elem_of_union, elem_of_singleton. split; [|tauto].
    intros [?| ->]; [done|lia]. }
  rewrite Hsame, Hun.
  destruct (filter (dup danmaku1) (unprocessed_from (S i) rest P))
    as [|c members]; simpl.
  - done.
  - by rewrite <- app_assoc.
Qed.

Lemma find_duplicates_greedy_groups all_danmaku :
  find_duplicates similarity_threshold all_danmaku =
  greedy_groups similarity_threshold all_danmaku.
Proof.
  unfold find_duplicates.
  destruct (bool_decide_reflect (length all_danmaku < 2)%nat) as [Hlen|Hlen].
  - destruct all_danmaku as [|a [|b rest]]; simpl in Hlen; try lia; done.
  - by rewrite outer_loop_spec, unprocessed_from_empty.
Qed.

Lemma submseteq_NoDup {A} (l k : list A) : l ⊆+ k -> NoDup k -> NoDup l.
Proof.
  intros Hsub Hk. apply submseteq_Permutation in Hsub as [k' Hperm].
  rewrite Hperm in Hk. by apply NoDup_app in Hk as [? _].
Qed.

Lemma elem_of_concat {A} (ls : list (list A)) l x :
  l ∈ ls -> x ∈ l -> x ∈ concat ls.
Proof.
  intros Hl Hx. apply list_elem_of_In, in_concat.
  exists l. by rewrite <- !list_elem_of_In.
Qed.

(** Lists whose concatenation has no repetition share no element. *)
Lemma NoDup_concat_disjoint {A} (ls : list (list A)) i j a b x :
  NoDup (concat ls) -> ls !! i = Some a -> ls !! j = Some b -> i <> j ->
  x ∈ a -> x ∈ b -> False.
Proof.
  revert i j. induction ls as [|l0 ls IH]; intros i j Hnd Hi Hj Hij Ha Hb;
    [done|].
  simpl in Hnd. apply NoDup_app in Hnd as (_ & Hdisj & Hnd).
  destruct i as [|i], j as [|j]; simpl in *; simplify_eq.
  - apply (Hdisj x Ha). apply (elem_of_concat ls b); [|done].
    by eapply list_elem_of_lookup_2.
  - apply (Hdisj x Hb). apply (elem_of_concat ls a); [|done].
    by eapply list_elem_of_lookup_2.
  - eapply (IH i j); eauto.
Qed.

(** C8.  The groups found by the loops of [cleanup_duplicate_danmaku] are
    those of the greedy grouping in input order: each comment not yet
    processed is an anchor, its group is the anchor followed by every
    later unprocessed comment whose similarity to the anchor reaches the
    threshold, the grouped comments take no further part, and a group of
    one is dropped.  In particular every returned group starts with its
    anchor and has a second element, and each member was tested against
    the anchor alone. *)
Theorem find_duplicates_greedy (all_danmaku : list Comment) :
  find_duplicates similarity_threshold all_danmaku =
    greedy_groups similarity_threshold all_danmaku /\
  Forall (anchored similarity_threshold)
    (find_duplicates similarity_threshold all_danmaku).
Proof.
  split; [apply find_duplicates_greedy_groups|].
  rewrite find_duplicates_greedy_groups. apply greedy_groups_anchored.
Qed.

(** C9.  When the comments have distinct identifiers, no identifier
    occurs twice among the members of all groups, the groups together
    take their members from the input, and two different groups share no
    identifier. *)
Theorem duplicate_groups_disjoint (all_danmaku : list Comment) :
  NoDup (id <$> all_danmaku) ->
  let groups := find_duplicates similarity_threshold all_danmaku in
  NoDup (id <$> concat groups) /\
  concat groups ⊆+ all_danmaku /\
  (forall i j group1 group2 c1 c2,
     groups !! i = Some group1 -> groups !! j = Some group2 -> i <> j ->
     c1 ∈ group1 -> c2 ∈ group2 -> id c1 <> id c2).
Proof.
  intros Hids groups.
  assert (Hsub : concat groups ⊆+ all_danmaku).
  { unfold groups. rewrite find_duplicates_greedy_groups.
    apply greedy_groups_submseteq. }
  assert (Hnd : NoDup (id <$> concat groups)).
  { eapply submseteq_NoDup; [|exact Hids]. by apply fmap_submseteq. }
  split; [done|]. split; [done|].
  intros i j group1 group2 c1 c2 Hi Hj Hij H1 H2 Heq.
  assert (Hnd' : NoDup (concat (fmap (M:=list) id <$> groups))).
  { replace (concat (fmap (M:=list) id <$> groups)) with (id <$> concat groups);
      [done|].
    clear. induction groups as [|g gs IH]; simpl; [done|].
    by rewrite fmap_app, IH. }
  apply (NoDup_concat_disjoint _ i j (id <$> group1) (id <$> group2) (id c1) Hnd').
  - by rewrite list_lookup_fmap, Hi.
  - by rewrite list_lookup_fmap, Hj.
  - done.
  - by apply list_elem_of_fmap_2.
  - rewrite Heq. by apply list_elem_of_fmap_2.
Qed.

End DuplicateGroups.

(** ** Popular comments *)

Section Popular.
Import CommentRepository Samples.

#[local] Instance rank_before_total : Total rank_before.
Proof.
  intros [c1 n1] [c2 n2]. unfold rank_before. simpl.
  destruct (lt_eq_lt_dec n1 n2) as [[Hlt| ->]|Hgt]; [by right; left| |by left; left].
  destruct (Qle_bool (t c1) (t c2)) eqn:H12; [by left; right|].
  right. right. split; [done|]. apply Qle_bool_iff.
  apply Qlt_le_weak, Qnot_le_lt. intros Hle. apply Qle_bool_iff in Hle. congruence.
Qed.

Lemma Sorted_take {A} (R : relation A) n l : Sorted R l -> Sorted R (take n l).
Proof.
  revert n. induction l as [|x l IH]; intros [|n] Hs; simpl; try constructor.
  - apply IH. by inversion Hs.
  - inversion Hs as [|? ? _ Hhd]; subst.
    destruct l as [|y l]; destruct n; simpl; constructor. by inversion Hhd.
Qed.

(** The first statement does rank its rows. *)
Lemma ranked_rows_sorted table episode limit :
  Sorted rank_before (ranked_rows table episode limit).
Proof. apply Sorted_take, Sorted_merge_sort, _. Qed.

(** C10 at a table of three comments.  The first statement ranks the
    pair of close comments, [2] then [3], before the lone comment [1];
    the list returned by [get_popular_danmaku] is [1], [2], [3], whose
    counts [0], [1], [1] are not in descending order. *)
Theorem get_popular_danmaku_order_lost :
  (fun row => id row.1) <$> ranked_rows lone_then_pair 1 50 = [2; 3; 1] /\
  id <$> get_popular_danmaku lone_then_pair 1 50 = [1; 2; 3] /\
  nearby_count lone_then_pair <$> get_popular_danmaku lone_then_pair 1 50
    = [0; 1; 1]%nat /\
  ~ density_ordered lone_then_pair (get_popular_danmaku lone_then_pair 1 50).
Proof.
  split; [vm_compute; reflexivity|]. split; [vm_compute; reflexivity|].
  split; [vm_compute; reflexivity|].
  intros Hsorted. unfold density_ordered in Hsorted.
  inversion Hsorted as [|? ? _ Hhd]; subst.
  inversion Hhd as [|? ? Hrank]; subst.
  unfold rank_before in Hrank. vm_compute in Hrank.
  destruct Hrank as [Hlt|[Heq _]]; [lia|discriminate].
Qed.

Lemma fmap_injective_on {A B} (f : A -> B) (l : list A) x y :
  NoDup (f <$> l) -> x ∈ l -> y ∈ l -> f x = f y -> x = y.
Proof.
  induction l as [|a l IH]; intros Hnd Hx Hy Hxy; [by apply elem_of_nil in Hx|].
  rewrite fmap_cons in Hnd. apply NoDup_cons in Hnd as [Ha Hnd].
  apply elem_of_cons in Hx as [->|Hx]; apply elem_of_cons in Hy as [->|Hy].
  - done.
  - exfalso. apply Ha. rewrite Hxy. by apply list_elem_of_fmap_2.
  - exfalso. apply Ha. rewrite <- Hxy. by apply list_elem_of_fmap_2.
  - by apply IH.
Qed.

(** The comments of the ranked rows are comments of the table, each at
    most once when the table repeats none. *)
Lemma ranked_rows_comments table episode limit :
  fst <$> ranked_rows table episode limit ⊆+ table.
Proof.
  unfold ranked_rows. rewrite fmap_take.
  etrans; [apply sublist_submseteq, sublist_take|].
  etrans; [apply Permutation_submseteq; apply fmap_Permutation,
             merge_sort_Permutation|].
  change (map ?f ?l) with (f <$> l).
  rewrite <- list_fmap_compose, list_fmap_id.
  apply sublist_submseteq, sublist_filter.
Qed.

(** With distinct identifiers the comments returned are those of the
    ranked rows, whatever the order. *)
Theorem get_popular_danmaku_members (table : list Comment) (episode : Z) (limit : nat) :
  NoDup (id <$> table) ->
  get_popular_danmaku table episode limit ≡ₚ fst <$> ranked_rows table episode limit.
Proof.
  intros Hids. unfold get_popular_danmaku.
  pose proof (ranked_rows_comments table episode limit) as Hsub.
  assert (Htable : NoDup table) by (by apply NoDup_fmap_1 in Hids).
  set (rows := ranked_rows table episode limit) in *.
  change (map ?f ?l) with (f <$> l).
  destruct ((fun row => id row.1) <$> rows) as [|i0 ids] eqn:Hrows.
  { apply fmap_nil_inv in Hrows. by rewrite Hrows. }
  rewrite <- Hrows. clear Hrows.
  apply NoDup_Permutation.
  - by apply NoDup_filter.
  - by apply (submseteq_NoDup _ _ Hsub).
  - intros c. rewrite list_elem_of_filter. split.
    + intros [Hid Hc]. apply list_elem_of_fmap in Hid as (row & Heq & Hrow).
      assert (Hin : row.1 ∈ table).
      { eapply elem_of_submseteq; [|exact Hsub]. by apply list_elem_of_fmap_2. }
      rewrite (fmap_injective_on id table c row.1 Hids Hc Hin Heq).
      by apply list_elem_of_fmap_2.
    + intros Hc. apply list_elem_of_fmap in Hc as (row & -> & Hrow). split.
      * apply list_elem_of_fmap. by exists row.
      * eapply elem_of_submseteq; [|exact Hsub]. by apply list_elem_of_fmap_2.
Qed.

End Popular.

(** ** Colour labels and the view path *)

Section ColorLabels.
Import DanmakuParamsParser EnhancedCommentStatistics ColorLabel.

Lemma to_hex_head_not_minus n :
  0 <= n -> exists c ds, to_hex n = c :: ds /\ Chars.is_minus c = false.
Proof.
  intros Hn. destruct (to_hex_spec n Hn) as (_ & Hu & Hlen & _).
  destruct (to_hex n) as [|c ds]; [simpl in Hlen; lia|].
  exists c, ds. split; [done|].
  apply Forall_cons in Hu as [Hc _]. unfold is_upper_hex, Chars.is_minus in *.
  destruct (N.eqb_spec (Chars.code c) 45) as [Heq|]; [|done].
  rewrite Heq in Hc. discriminate.
Qed.

Lemma read_color_hex_unsigned l :
  (exists c ds, l = c :: ds /\ Chars.is_minus c = false) ->
  read_color_hex (String "#"%char (string_of_list_ascii l)) = hex_value l.
Proof.
  intros (c & ds & -> & Hc). unfold read_color_hex.
  change (list_ascii_of_string (String "#"%char (string_of_list_ascii (c :: ds))))
    with ("#"%char :: list_ascii_of_string (string_of_list_ascii (c :: ds))).
  rewrite list_ascii_of_string_of_list_ascii. by rewrite Hc.
Qed.

Lemma read_color_hex_signed l :
  read_color_hex (String "#"%char (string_of_list_ascii ("-"%char :: l))) = - hex_value l.
Proof.
  unfold read_color_hex.
  change (list_ascii_of_string (String "#"%char (string_of_list_ascii ("-"%char :: l))))
    with ("#"%char :: list_ascii_of_string (string_of_list_ascii ("-"%char :: l))).
  by rewrite list_ascii_of_string_of_list_ascii.
Qed.

(** The format of [get_color_hex] read back: the label determines the
    colour, for every integer, negative ones included. *)
Theorem get_color_hex_read_back (color : Z) :
  read_color_hex (get_color_hex color) = color.
Proof.
  unfold get_color_hex, format_06X.
  destruct (Z.ltb_spec color 0) as [Hneg|Hpos].
  - change (["-"%char] ++ ?l)%list with ("-"%char :: l).
    rewrite read_color_hex_signed, hex_value_zeros.
    destruct (to_hex_spec (Z.abs color)) as (-> & _); lia.
  - rewrite Z.abs_eq by lia. change ([] ++ ?l)%list with l.
    destruct (to_hex_spec color Hpos) as (Hv & _).
    rewrite read_color_hex_unsigned; [by rewrite hex_value_zeros|].
    destruct (to_hex_head_not_minus color Hpos) as (c & ds & Hds & Hc).
    destruct (6 - length (@nil ascii) - length (to_hex color))%nat as [|k].
    + exists c, ds. by rewrite Hds.
    + by exists "0"%char, (repeat "0"%char k ++ to_hex color)%list.
Qed.

Lemma get_color_hex_inj a b : get_color_hex a = get_color_hex b -> a = b.
Proof.
  intros Heq. rewrite <- (get_color_hex_read_back a), Heq.
  apply get_color_hex_read_back.
Qed.

(** [relabel] with a label that tells codes apart, on rows with distinct
    codes: the dictionary has one entry per row. *)
Lemma relabel_snoc label rows row :
  relabel label (rows ++ [row]) = <[label row.1 := row.2]> (relabel label rows).
Proof. unfold relabel. by rewrite fold_left_app. Qed.

Lemma relabel_lookup_Some label rows k n :
  relabel label rows !! k = Some n ->
  exists code, (code, n) ∈ rows /\ k = label code.
Proof.
  induction rows as [|[code count] rows IH] using rev_ind.
  { unfold relabel. simpl. by rewrite lookup_empty. }
  rewrite relabel_snoc. simpl. rewrite lookup_insert.
  destruct (decide (label code = k)) as [<-|Hne].
  - intros [= <-]. exists code. split; [|done]. apply elem_of_app. right. by left.
  - intros Hk. destruct (IH Hk) as (code' & Hin & ->).
    exists code'. split; [|done]. apply elem_of_app. by left.
Qed.

Lemma relabel_entries label rows :
  (forall a b, label a = label b -> a = b) ->
  NoDup rows.*1 ->
  (forall code n, (code, n) ∈ rows -> relabel label rows !! label code = Some n) /\
  size (relabel label rows) = length rows.
Proof.
  intros Hinj. induction rows as [|[code count] rows IH] using rev_ind; intros Hnd.
  { split; [intros ? ? Hin; by apply elem_of_nil in Hin|done]. }
  rewrite fmap_app in Hnd. apply NoDup_app in Hnd as (Hnd & Hfresh & _).
  destruct (IH Hnd) as [Hlook Hsize]. rewrite relabel_snoc. simpl.
  assert (Hnone : relabel label rows !! label code = None).
  { destruct (relabel label rows !! label code) as [n|] eqn:Hk; [|done].
    apply relabel_lookup_Some in Hk as (code' & Hin & Heq).
    apply Hinj in Heq as <-. exfalso.
    apply (Hfresh code); [|simpl; by left].
    apply list_elem_of_fmap. by exists (code, n). }
  split.
  - intros code' n Hin. apply elem_of_app in Hin as [Hin|Hin].
    + rewrite lookup_insert_ne; [by apply Hlook|].
      intros Heq. apply Hinj in Heq as <-.
      apply (Hfresh code); [|simpl; by left].
      apply list_elem_of_fmap. by exists (code, n).
    + apply list_elem_of_singleton in Hin as [= -> ->]. apply lookup_insert_eq.
  - rewrite map_size_insert_None by done. rewrite length_app. simpl. lia.
Qed.

(** The colour distribution of the view path keeps every group the
    statement returns: with one row per colour, each row's count is found
    under the label of its colour, the dictionary has as many entries as
    there are rows, and every entry comes from a row. *)
Theorem color_distribution_via_view_entries (session : Session) (episode : Z)
    (rows : list (Z * Z)) :
  view_color_rows session episode = Return rows ->
  NoDup rows.*1 ->
  exists dist,
    get_color_distribution_via_view session episode = Return dist /\
    (forall color n, (color, n) ∈ rows -> dist !! get_color_hex color = Some n) /\
    size dist = length rows /\
    (forall label n, dist !! label = Some n ->
       exists color, (color, n) ∈ rows /\ label = get_color_hex color).
Proof.
  intros Hrows Hnd. unfold get_color_distribution_via_view. rewrite Hrows. simpl.
  eexists. split; [reflexivity|].
  destruct (relabel_entries get_color_hex rows get_color_hex_inj Hnd) as [Hl Hs].
  split; [done|]. split; [done|]. apply relabel_lookup_Some.
Qed.

End ColorLabels.

(** ** The properties of the [Comment] model *)

Section CommentModelProperties.
Import Builtins DanmakuParamsParser CommentModel.

(** On eight fields or more the model's parsing and the parser class
    convert the same fields: both succeed with the same values, or the
    model raises [ValueError] where the parser class returns the empty
    dictionary. *)
Lemma parse_params_outcome (self : Comment) :
  (8 <= length (split (p self)))%nat ->
  (exists time mode font_size color timestamp pool p6 p7,
     parse_params_string (p self) =
       Return (params_dict time mode font_size color timestamp pool p6 p7) /\
     parse_params self =
       Return (model_dict time mode font_size color timestamp pool p6 p7)) \/
  (parse_params_string (p self) = Return ∅ /\ parse_params self = Raise ValueError).
Proof.
  intros Hlen. unfold parse_params_string, parse_params.
  rewrite !bool_decide_eq_true_2 by done.
  destruct (split (p self)) as [|p0 [|p1 [|p2 [|p3 [|p4 [|p5 [|p6 [|p7 rest]]]]]]]];
    simpl in Hlen; try lia.
  rewrite build_eight. simpl.
  destruct (py_float p0) as [time|e0] eqn:E0; simpl;
    [|rewrite (py_float_raises _ _ E0); by right].
  destruct (py_int p1) as [mode|e1] eqn:E1; simpl;
    [|rewrite (py_int_raises _ _ E1); by right].
  destruct (py_int p2) as [font_size|e2] eqn:E2; simpl;
    [|rewrite (py_int_raises _ _ E2); by right].
  destruct (py_int p3) as [color|e3] eqn:E3; simpl;
    [|rewrite (py_int_raises _ _ E3); by right].
  destruct (py_int p4) as [timestamp|e4] eqn:E4; simpl;
    [|rewrite (py_int_raises _ _ E4); by right].
  destruct (py_int p5) as [pool|e5] eqn:E5; simpl;
    [|rewrite (py_int_raises _ _ E5); by right].
  left. by exists time, mode, font_size, color, timestamp, pool, p6, p7.
Qed.

Lemma model_dict_lookup key time mode font_size color timestamp pool p6 p7 :
  key ∈ ["mode"; "color"; "font_size"; "timestamp"; "user_hash"] ->
  model_dict time mode font_size color timestamp pool p6 p7 !! key =
  params_dict time mode font_size color timestamp pool p6 p7 !! key /\
  is_Some (params_dict time mode font_size color timestamp pool p6 p7 !! key).
Proof.
  intros Hkey. unfold model_dict, params_dict.
  repeat (apply elem_of_cons in Hkey as [->|Hkey]);
    [..|by apply elem_of_nil in Hkey];
    repeat (rewrite lookup_insert_ne by done); rewrite !lookup_insert_eq; eauto.
Qed.

(** The properties [mode], [color], [font_size], [timestamp] and
    [user_hash] of a comment, each [parse_params().get(key, fallback)]:
    the fallback is returned when the string has fewer than eight fields;
    when the parser class decodes the string the property returns the
    decoded entry; when the string has eight fields or more and the parser
    class returns the empty dictionary, the property raises [ValueError]
    and no fallback is used. *)
Theorem comment_property_outcomes (self : Comment) (key : string) (fallback : pyval) :
  key ∈ ["mode"; "color"; "font_size"; "timestamp"; "user_hash"] ->
  ((length (split (p self)) < 8)%nat -> param_or key fallback self = Return fallback) /\
  (forall d, parse_params_string (p self) = Return d -> d <> ∅ ->
     exists v, d !! key = Some v /\ param_or key fallback self = Return v) /\
  ((8 <= length (split (p self)))%nat -> parse_params_string (p self) = Return ∅ ->
     param_or key fallback self = Raise ValueError).
Proof.
  intros Hkey. split; [|split].
  - intros Hlen. unfold param_or, parse_params.
    rewrite bool_decide_eq_false_2 by lia. simpl. by rewrite lookup_empty.
  - intros d Hd Hne.
    assert (Hlen : (8 <= length (split (p self)))%nat).
    { destruct (le_lt_dec 8 (length (split (p self)))) as [|Hlt]; [done|].
      rewrite parse_too_short in Hd by done. congruence. }
    destruct (parse_params_outcome self Hlen)
      as [(time & mode & fs & c & ts & pl & p6 & p7 & Hp & Hm)|[Hp _]];
      [|congruence].
    rewrite Hp in Hd. injection Hd as <-.
    destruct (model_dict_lookup key time mode fs c ts pl p6 p7 Hkey) as [Heq [v Hv]].
    exists v. split; [done|]. unfold param_or. rewrite Hm. simpl.
    by rewrite Heq, Hv.
  - intros Hlen Hempty.
    destruct (parse_params_outcome self Hlen)
      as [(time & mode & fs & c & ts & pl & p6 & p7 & Hp & _)|[_ Hm]].
    + rewrite Hp in Hempty. exfalso.
      apply (params_dict_nonempty time mode fs c ts pl p6 p7). congruence.
    + unfold param_or. by rewrite Hm.
Qed.

End CommentModelProperties.

(** ** Top commenters *)

Section TopCommentersProperties.
Import CommentModel TopCommenters.

Lemma recorded_increment k k' user_stats :
  recorded k' (increment k user_stats) =
  recorded k' user_stats + (if decide (k = k') then 1 else 0).
Proof.
  induction user_stats as [|[k0 n] rest IH]; simpl.
  { destruct (decide (k = k')); lia. }
  destruct (decide (k0 = k)) as [->|Hne]; simpl.
  - destruct (decide (k = k')); lia.
  - rewrite IH. lia.
Qed.

Lemma increment_keys k user_stats key :
  key ∈ (increment k user_stats).*1 <-> key = k \/ key ∈ user_stats.*1.
Proof.
  induction user_stats as [|[k0 n] rest IH]; simpl.
  { rewrite list_elem_of_singleton, elem_of_nil. tauto. }
  destruct (decide (k0 = k)) as [->|Hne]; simpl.
  - rewrite !elem_of_cons. tauto.
  - rewrite !elem_of_cons, IH. tauto.
Qed.

Lemma increment_NoDup k user_stats :
  NoDup user_stats.*1 -> NoDup (increment k user_stats).*1.
Proof.
  induction user_stats as [|[k0 n] rest IH]; simpl; intros Hnd.
  { repeat constructor. by intros ?%elem_of_nil. }
  apply NoDup_cons in Hnd as [Hk0 Hnd].
  destruct (decide (k0 = k)) as [->|Hne]; simpl.
  - by apply NoDup_cons.
  - apply NoDup_cons. split; [|by apply IH].
    rewrite increment_keys. intros [->|?]; done.
Qed.

Lemma recorded_absent k user_stats : k ∉ user_stats.*1 -> recorded k user_stats = 0.
Proof.
  induction user_stats as [|[k0 n] rest IH]; simpl; [done|].
  rewrite not_elem_of_cons. intros [Hne Hk].
  rewrite decide_False by done. rewrite IH by done. lia.
Qed.

Lemma recorded_elem_of k n user_stats :
  NoDup user_stats.*1 -> (k, n) ∈ user_stats -> recorded k user_stats = n.
Proof.
  induction user_stats as [|[k0 n0] rest IH]; simpl; intros Hnd Hin.
  { by apply elem_of_nil in Hin. }
  apply NoDup_cons in Hnd as [Hk0 Hnd].
  apply elem_of_cons in Hin as [[= <- <-]|Hin].
  - rewrite decide_True by done. rewrite recorded_absent by done. lia.
  - rewrite decide_False.
    + rewrite (IH Hnd Hin). lia.
    + intros ->. apply Hk0. apply list_elem_of_fmap. by exists (k, n).
Qed.

Lemma comments_of_cons k comment rest :
  comments_of k (comment :: rest) =
  ((if decide (user_hash comment = Return k) then 1 else 0) + comments_of k rest)%nat.
Proof.
  unfold comments_of. rewrite filter_cons.
  by destruct (decide (user_hash comment = Return k)).
Qed.

(** The counting loop keeps the keys distinct and truthy and adds to each
    key's count the number of comments that carry it. *)
Lemma count_users_spec comments user_stats result :
  count_users comments user_stats = Return result ->
  NoDup user_stats.*1 -> Forall (fun item => truthy item.1 = true) user_stats ->
  NoDup result.*1 /\ Forall (fun item => truthy item.1 = true) result /\
  (forall k, truthy k = true ->
     recorded k result = recorded k user_stats + Z.of_nat (comments_of k comments)) /\
  (forall key, key ∈ result.*1 -> key ∈ user_stats.*1 \/ comments_of key comments <> 0%nat).
Proof.
  revert user_stats. induction comments as [|comment rest IH];
    intros user_stats Hres Hnd Htruthy; simpl in Hres.
  { injection Hres as <-. repeat split; try done.
    - intros k _. unfold comments_of. simpl. lia.
    - intros key Hkey. by left. }
  destruct (user_hash comment) as [v|e] eqn:Hv; simpl in Hres; [|discriminate].
  destruct (truthy v) eqn:Htv.
  - apply IH in Hres as (Hnd' & Ht' & Hrec & Hkeys).
    2:{ by apply increment_NoDup. }
    2:{ apply Forall_forall. intros [k n] Hin. simpl.
        assert (Hk : k ∈ (increment v user_stats).*1).
        { apply list_elem_of_fmap. by exists (k, n). }
        apply increment_keys in Hk as [->|Hk]; [done|].
        apply list_elem_of_fmap in Hk as ([k' n'] & -> & Hin').
        rewrite Forall_forall in Htruthy. by apply (Htruthy _ Hin'). }
    split; [done|]. split; [done|]. split.
    + intros k Hk. rewrite (Hrec k Hk), recorded_increment, comments_of_cons, Hv.
      destruct (decide (v = k)) as [->|Hne].
      * rewrite decide_True by done. lia.
      * rewrite decide_False by congruence. lia.
    + intros key Hkey. rewrite comments_of_cons, Hv.
      destruct (Hkeys key Hkey) as [Hin|Hcount].
      * apply increment_keys in Hin as [->|Hin]; [|by left].
        right. rewrite decide_True by done. lia.
      * right. lia.
  - apply IH in Hres as (Hnd' & Ht' & Hrec & Hkeys); [|done..].
    split; [done|]. split; [done|]. split.
    + intros k Hk. rewrite (Hrec k Hk), comments_of_cons, Hv.
      rewrite decide_False by (intros [= ->]; congruence). lia.
    + intros key Hkey. rewrite comments_of_cons.
      destruct (Hkeys key Hkey) as [Hin|Hcount]; [by left|right; lia].
Qed.

Lemma count_users_returned comments user_stats :
  (forall c, c ∈ comments -> returned (user_hash c)) ->
  returned (count_users comments user_stats).
Proof.
  revert user_stats. induction comments as [|comment rest IH];
    intros user_stats Hall; simpl; [done|].
  pose proof (Hall comment ltac:(by left)) as Hc.
  destruct (user_hash comment) as [v|e]; [|done]. simpl.
  destruct (truthy v); apply IH; intros c Hin; apply Hall; by right.
Qed.

Lemma count_users_raised comments user_stats :
  (exists c, c ∈ comments /\ raised (user_hash c)) ->
  raised (count_users comments user_stats).
Proof.
  revert user_stats. induction comments as [|comment rest IH];
    intros user_stats (c & Hin & Hc); simpl; [by apply elem_of_nil in Hin|].
  destruct (user_hash comment) as [v|e] eqn:Hv; [|done]. simpl.
  apply elem_of_cons in Hin as [->|Hin]; [by rewrite Hv in Hc|].
  destruct (truthy v); apply IH; eauto.
Qed.

Lemma insert_desc_Permutation x l : insert_desc x l ≡ₚ x :: l.
Proof.
  induction l as [|y l IH]; simpl; [done|].
  destruct (y.2 <=? x.2)%Z; [done|]. rewrite IH. apply Permutation_swap.
Qed.

Lemma sorted_desc_Permutation l : sorted_desc l ≡ₚ l.
Proof.
  induction l as [|x l IH]; simpl; [done|].
  by rewrite insert_desc_Permutation, IH.
Qed.

Lemma insert_desc_Sorted x l :
  Sorted (fun a b : pyval * Z => b.2 <= a.2) l ->
  Sorted (fun a b : pyval * Z => b.2 <= a.2) (insert_desc x l).
Proof.
  induction l as [|y l IH]; simpl; intros Hs; [by repeat constructor|].
  destruct (Z.leb_spec y.2 x.2) as [Hle|Hgt].
  - constructor; [done|]. by constructor.
  - inversion Hs as [|? ? Hs' Hhd]; subst. constructor; [by apply IH|].
    destruct l as [|z l]; simpl.
    + constructor. lia.
    + inversion Hhd; subst. destruct (z.2 <=? x.2)%Z; constructor; [lia|done].
Qed.

Lemma sorted_desc_Sorted l :
  Sorted (fun a b : pyval * Z => b.2 <= a.2) (sorted_desc l).
Proof.
  induction l as [|x l IH]; simpl; [constructor|]. by apply insert_desc_Sorted.
Qed.

Lemma slice_to_sublist {A} limit (l : list A) : slice_to limit l `sublist_of` l.
Proof. unfold slice_to. destruct (0 <=? limit)%Z; apply sublist_take. Qed.

Lemma slice_to_take {A} limit (l : list A) :
  exists j, slice_to limit l = take j l /\
            (0 <= limit -> j = Z.to_nat limit) /\
            (limit < 0 -> j = (length l - Z.to_nat (- limit))%nat).
Proof.
  unfold slice_to. destruct (Z.leb_spec 0 limit); eexists; (split; [done|]); lia.
Qed.

(** In a list in descending order, what a cut keeps is at least what it
    leaves. *)
Lemma Sorted_take_drop (l : list (pyval * Z)) j x y :
  Sorted (fun a b : pyval * Z => b.2 <= a.2) l ->
  x ∈ take j l -> y ∈ drop j l -> y.2 <= x.2.
Proof.
  intros Hs. apply Sorted_StronglySorted in Hs; [|intros a b c ? ?; lia].
  revert j. induction Hs as [|a l Hs IH Hall]; intros j Hx Hy.
  { rewrite take_nil in Hx. by apply elem_of_nil in Hx. }
  destruct j as [|j]; simpl in Hx, Hy; [by apply elem_of_nil in Hx|].
  apply elem_of_cons in Hx as [->|Hx]; [|by apply (IH j)].
  rewrite Forall_forall in Hall. apply Hall.
  eapply elem_of_sublist; [exact Hy|apply sublist_drop].
Qed.

(** The dictionary built by the counting loop holds exactly the senders
    with a non-empty hash, each with the number of its comments. *)
Lemma count_users_entries comments user_stats :
  count_users comments [] = Return user_stats ->
  NoDup user_stats.*1 /\
  forall k n, (k, n) ∈ user_stats <->
    truthy k = true /\ 0 < n /\ n = Z.of_nat (comments_of k comments).
Proof.
  intros Hcount.
  destruct (count_users_spec _ _ _ Hcount) as (Hnd & Htruthy & Hrec & Hkeys);
    [constructor|constructor|].
  split; [done|]. intros k n. split.
  - intros Hin.
    assert (Hk : truthy k = true).
    { rewrite Forall_forall in Htruthy. by apply (Htruthy _ Hin). }
    pose proof (recorded_elem_of k n user_stats Hnd Hin) as Hn.
    rewrite (Hrec k Hk) in Hn. simpl in Hn.
    split; [done|]. split; [|lia].
    destruct (Hkeys k) as [Hempty|Hpos].
    + apply list_elem_of_fmap. by exists (k, n).
    + by apply elem_of_nil in Hempty.
    + lia.
  - intros (Hk & Hpos & ->).
    pose proof (Hrec k Hk) as Hn. simpl in Hn.
    destruct (decide (k ∈ user_stats.*1)) as [Hin|Hout].
    + apply list_elem_of_fmap in Hin as ([k' n'] & -> & Hin). simpl in *.
      pose proof (recorded_elem_of k' n' user_stats Hnd Hin) as Hn'.
      replace (Z.of_nat (comments_of k' comments)) with n' by lia. done.
    + rewrite recorded_absent in Hn by done. lia.
Qed.

(** [get_top_commenters].  When the [user_hash] property of every comment
    returns, the result is the head of a ranking that holds every sender
    with a non-empty hash once, beside the number of the episode's
    comments that carry that hash, in descending order of that number.
    The head has [limit] entries, or the whole ranking if it is shorter;
    for a negative [limit] it is the ranking without its last [-limit]
    entries.  So a sender is left out only when the limit is reached, and
    then no listed sender has fewer comments.  When the property raises
    on one comment, the whole call raises. *)
Theorem get_top_commenters_counts (comments : list Comment) (limit : Z) :
  ((forall c, c ∈ comments -> returned (user_hash c)) ->
   exists top ranking,
     get_top_commenters comments limit = Return top /\
     Sorted (fun a b : pyval * Z => b.2 <= a.2) ranking /\
     NoDup ranking.*1 /\
     (forall k n, (k, n) ∈ ranking <->
        truthy k = true /\ 0 < n /\ n = Z.of_nat (comments_of k comments)) /\
     top `prefix_of` ranking /\
     (0 <= limit -> length top = Nat.min (Z.to_nat limit) (length ranking)) /\
     (limit < 0 -> length top = (length ranking - Z.to_nat (- limit))%nat) /\
     Sorted (fun a b : pyval * Z => b.2 <= a.2) top /\
     NoDup top.*1 /\
     (0 <= limit -> (length top <= Z.to_nat limit)%nat) /\
     (forall k n, (k, n) ∈ top ->
        truthy k = true /\ 0 < n /\ n = Z.of_nat (comments_of k comments)) /\
     (forall k, truthy k = true -> (0 < comments_of k comments)%nat -> k ∉ top.*1 ->
        (0 <= limit -> length top = Z.to_nat limit) /\
        (forall k' n', (k', n') ∈ top -> Z.of_nat (comments_of k comments) <= n'))) /\
  ((exists c, c ∈ comments /\ raised (user_hash c)) ->
   raised (get_top_commenters comments limit)).
Proof.
  split.
  - intros Hall. unfold get_top_commenters.
    pose proof (count_users_returned comments [] Hall) as Hret.
    destruct (count_users comments []) as [user_stats|] eqn:Hcount; [|done].
    destruct (count_users_entries _ _ Hcount) as [Hnd Hentries].
    simpl. set (ranking := sorted_desc user_stats).
    assert (Hsorted : Sorted (fun a b : pyval * Z => b.2 <= a.2) ranking)
      by apply sorted_desc_Sorted.
    assert (Hnd' : NoDup ranking.*1).
    { unfold ranking. by rewrite sorted_desc_Permutation. }
    assert (Hrank : forall k n, (k, n) ∈ ranking <->
              truthy k = true /\ 0 < n /\ n = Z.of_nat (comments_of k comments)).
    { intros k n. unfold ranking. rewrite sorted_desc_Permutation. apply Hentries. }
    destruct (slice_to_take limit ranking) as (j & Hj & Hpos & Hneg).
    exists (slice_to limit ranking), ranking. rewrite Hj.
    split; [done|]. split; [done|]. split; [done|]. split; [done|].
    split; [exists (drop j ranking); by rewrite take_drop|].
    split; [intros Hl; rewrite length_take, (Hpos Hl); lia|].
    split; [intros Hl; rewrite length_take, (Hneg Hl); lia|].
    split; [by apply Sorted_take|].
    split.
    { apply (sublist_NoDup _ ranking.*1); [done|]. apply fmap_sublist, sublist_take. }
    split; [intros Hl; rewrite length_take, (Hpos Hl); lia|].
    split.
    { intros k n Hin. apply Hrank.
      eapply elem_of_sublist; [exact Hin|apply sublist_take]. }
    intros k Hk Hcount' Hout.
    assert (Hin : (k, Z.of_nat (comments_of k comments)) ∈ ranking).
    { apply Hrank. split; [done|]. split; [lia|done]. }
    rewrite <- (take_drop j ranking) in Hin.
    apply elem_of_app in Hin as [Hin|Hin].
    { exfalso. apply Hout. apply list_elem_of_fmap. by eexists (_, _). }
    split.
    + intros Hl. rewrite length_take, (Hpos Hl).
      destruct (le_lt_dec (length ranking) j) as [Hle|Hlt]; [|lia].
      rewrite drop_ge in Hin by done. by apply elem_of_nil in Hin.
    + intros k' n' Hin'.
      apply (Sorted_take_drop ranking j (k', n') _ Hsorted Hin' Hin).
  - intros Hex. unfold get_top_commenters.
    pose proof (count_users_raised comments [] Hex) as Hr.
    by destruct (count_users comments []).
Qed.

End TopCommentersProperties.

(** ** Batched import *)

Section ImportBatchesProperties.
Import ImportBatches.

Context {item instance store : Type}.
Variable model : item -> instance.
Variable flush : store -> list instance -> store * option pyexn.
Variable refresh : store -> instance -> store * res instance.

Lemma refresh_all_length st instances st' refreshed :
  refresh_all refresh st instances = (st', Return refreshed) ->
  length refreshed = length instances.
Proof.
  revert st st' refreshed. induction instances as [|inst rest IH];
    intros st st' refreshed; simpl.
  { by intros [= _ <-]. }
  destruct (refresh st inst) as [st1 [inst'|e]]; [|discriminate].
  destruct (refresh_all refresh st1 rest) as [st2 [rest'|e]] eqn:Hrest;
    [|discriminate].
  intros [= _ <-]. simpl. f_equal. by eapply IH.
Qed.

(** [create_many] returns as many instances as it was given items. *)
Lemma create_many_length st items st' created :
  create_many model flush refresh st items = (st', Return created) ->
  length created = length items.
Proof.
  unfold create_many. destruct (flush st (model <$> items)) as [st1 [e|]];
    [discriminate|].
  intros Hr. apply refresh_all_length in Hr. by rewrite length_fmap in Hr.
Qed.

Lemma failed_items_snoc errors e :
  failed_items (errors ++ [e]) = (failed_items errors + batch_len e)%nat.
Proof. unfold failed_items. rewrite sum_list_with_app. simpl. lia. Qed.

(** Number of batches from position [i] on. *)
Lemma batches_from_step (n i b : nat) :
  (1 <= b)%nat -> (i < n)%nat ->
  (Z.of_nat (n - i) + Z.of_nat b - 1) / Z.of_nat b =
  1 + (Z.of_nat (n - (i + b)) + Z.of_nat b - 1) / Z.of_nat b.
Proof.
  intros Hb Hi.
  destruct (le_lt_dec n (i + b)) as [Hend|Hmore].
  - replace (n - (i + b))%nat with 0%nat by lia.
    rewrite (Z.div_small (Z.of_nat 0 + _ - 1)) by lia.
    assert ((Z.of_nat (n - i) + Z.of_nat b - 1) / Z.of_nat b = 1); [|lia].
    symmetry. apply (Z.div_unique _ _ 1 (Z.of_nat (n - i) - 1)); lia.
  - replace (Z.of_nat (n - i) + Z.of_nat b - 1)
      with ((Z.of_nat (n - (i + b)) + Z.of_nat b - 1) + 1 * Z.of_nat b) by lia.
    rewrite Z.div_add by lia. lia.
Qed.

Lemma batch_loop_spec fuel b i (l : list item) st total errors st' total' errors' :
  (1 <= b)%nat -> (length l - i <= fuel)%nat ->
  batch_loop model flush refresh fuel b i l st total errors = (st', total', errors') ->
  (total' + failed_items errors' = total + failed_items errors + (length l - i))%nat /\
  Z.of_nat (length errors') <=
    Z.of_nat (length errors) + (Z.of_nat (length l - i) + Z.of_nat b - 1) / Z.of_nat b /\
  (forall e, e ∈ errors' -> e ∈ errors \/
     (i <= batch_start e < length l)%nat /\ (1 <= batch_len e <= b)%nat).
Proof.
  intros Hb. revert i st total errors.
  induction fuel as [|fuel IH]; intros i st total errors Hfuel; simpl.
  { intros [= <- <- <-]. replace (length l - i)%nat with 0%nat by lia.
    rewrite Z.div_small by lia. split; [lia|]. split; [lia|]. by left. }
  destruct (bool_decide_reflect (i < length l)%nat) as [Hi|Hi].
  2:{ intros [= <- <- <-]. replace (length l - i)%nat with 0%nat by lia.
      rewrite Z.div_small by lia. split; [lia|]. split; [lia|]. by left. }
  assert (Hbatch : length (take b (drop i l)) = Nat.min b (length l - i)).
  { by rewrite length_take, length_drop. }
  rewrite (batches_from_step (length l) i b Hb Hi).
  destruct (create_many model flush refresh st (take b (drop i l)))
    as [st1 [imported|e]] eqn:Hcreate.
  - apply create_many_length in Hcreate. intros Hloop.
    apply IH in Hloop as (Hsum & Hcount & Herr); [|lia].
    split; [lia|]. split; [lia|].
    intros e He. destruct (Herr e He) as [?|[? ?]]; [by left|right; lia].
  - intros Hloop. apply IH in Hloop as (Hsum & Hcount & Herr); [|lia].
    rewrite failed_items_snoc in Hsum. rewrite length_app in Hcount.
    simpl in Hsum, Hcount.
    split; [lia|]. split; [lia|].
    intros e' He'. destruct (Herr e' He') as [Hin|[? ?]]; [|right; lia].
    apply elem_of_app in Hin as [?|Hin]; [by left|].
    apply list_elem_of_singleton in Hin as ->. right. simpl. lia.
Qed.

(** The batch import of [import_danmaku_from_xml] with a batch size of one
    or more: every parsed entry is either counted in [total_imported] or
    belongs to a batch listed in [errors]; there are at most
    [batches_processed] such batches; each listed batch lies inside the
    list and has between one and [batch_size] entries. *)
Theorem import_batches_accounts (batch_size : Z) (danmaku_list : list item) (st : store) :
  1 <= batch_size ->
  exists st' total_imported errors,
    import_batches model flush refresh batch_size danmaku_list st =
      (st', Return (total_imported, errors)) /\
    (total_imported + failed_items errors = length danmaku_list)%nat /\
    Z.of_nat (length errors) <= batches_processed batch_size danmaku_list /\
    Forall (fun e => (batch_start e < length danmaku_list)%nat /\
                     1 <= Z.of_nat (batch_len e) <= batch_size) errors.
Proof.
  intros Hb. unfold import_batches, batches_processed.
  rewrite (proj2 (Z.eqb_neq batch_size 0)) by lia.
  rewrite (proj2 (Z.ltb_ge batch_size 0)) by lia.
  destruct (batch_loop model flush refresh (length danmaku_list)
              (Z.to_nat batch_size) 0 danmaku_list st 0 [])
    as [[st' total] errors] eqn:Hloop.
  apply batch_loop_spec in Hloop as (Hsum & Hcount & Herr); [|lia|lia].
  exists st', total, errors. split; [done|].
  rewrite Nat.sub_0_r, Z2Nat.id in Hcount by lia.
  split; [unfold failed_items in *; simpl in Hsum; lia|].
  split; [simpl in Hcount; lia|].
  apply Forall_forall. intros e He.
  destruct (Herr e He) as [Hin|[? ?]]; [by apply elem_of_nil in Hin|lia].
Qed.

(** A batch size of zero makes [range] raise before anything is stored. *)
Lemma import_batches_zero (danmaku_list : list item) (st : store) :
  import_batches model flush refresh 0 danmaku_list st = (st, Raise ValueError).
Proof. reflexivity. Qed.

End ImportBatchesProperties.

(** ** Statistics of an episode *)

Section DanmakuStatisticsProperties.
Import EnhancedCommentStatistics DanmakuStatistics.

Variable get_mode_name : Z -> string.
Variable get_font_size_name : Z -> string.
Variable round2 : Q -> Q.
Variable exn_text : pyexn -> string.

(** What [get_comprehensive_statistics] returns is tagged by the path
    that produced it. *)
Lemma comprehensive_statistics_method session episode use_view python_limit stats :
  get_comprehensive_statistics get_mode_name get_font_size_name
    session episode use_view python_limit = Return stats ->
  (method stats = "database_view" /\ sample_limit stats = None /\ use_view = true) \/
  (method stats = "python_parsing" /\ sample_limit stats = Some python_limit).
Proof.
  unfold get_comprehensive_statistics.
  assert (Hpy : python_path get_mode_name get_font_size_name session episode
                  python_limit = Return stats ->
                method stats = "python_parsing" /\
                sample_limit stats = Some python_limit).
  { unfold python_path.
    destruct (get_color_distribution_via_python session episode python_limit);
      [|discriminate]. simpl.
    destruct (get_mode_distribution_via_python get_mode_name session episode
                python_limit); [|discriminate]. simpl.
    destruct (select_p session episode python_limit) as [params|]; [|discriminate].
    simpl.
    destruct (tally "font_size" get_font_size_name params ∅); [|discriminate]. simpl.
    by intros [= <-]. }
  destruct use_view; [|by right; apply Hpy].
  destruct (view_path get_mode_name get_font_size_name session episode)
    as [vstats|e] eqn:Hview; [|by right; apply Hpy].
  intros [= <-]. left. unfold view_path in Hview.
  destruct (get_color_distribution_via_view session episode); [|discriminate].
  simpl in Hview.
  destruct (get_mode_distribution_via_view get_mode_name session episode);
    [|discriminate]. simpl in Hview.
  destruct (get_font_size_distribution_via_view get_font_size_name session episode);
    [|discriminate]. simpl in Hview.
  by injection Hview as <-.
Qed.

(** [get_danmaku_statistics] absorbs every failure of the enhanced
    statistics: once its three basic statements answer, it returns.  The
    method reported is one of three; under [basic_only] the three
    distributions are empty; an error text is attached exactly when the
    enhanced statistics were asked for and raised; under
    [python_parsing] the sample limit reported is 1000. *)
Theorem get_danmaku_statistics_returns (statements : BasicStatements)
    (session : Session) (episode : Z) (use_enhanced use_view : bool)
    (total : option Z) (avg : option Q) (rows : list (Z * Z)) :
  count_rows statements episode = Return total ->
  average_t statements episode = Return avg ->
  minute_rows statements episode = Return rows ->
  exists stats,
    get_danmaku_statistics get_mode_name get_font_size_name round2 exn_text
      statements session episode use_enhanced use_view = Return stats /\
    total_count stats = default 0 total /\
    statistics_method stats ∈ ["database_view"; "python_parsing"; "basic_only"] /\
    (statistics_method stats = "basic_only" ->
       colors stats = ∅ /\ modes stats = ∅ /\ font_sizes stats = ∅) /\
    (is_Some (enhanced_error stats) <->
       use_enhanced = true /\
       raised (get_comprehensive_statistics get_mode_name get_font_size_name
                 session episode use_view 1000)) /\
    (statistics_method stats = "python_parsing" ->
       reported_sample_limit stats = Some 1000).
Proof.
  intros Hc Ha Hm. unfold get_danmaku_statistics. rewrite Hc, Ha, Hm. simpl.
  destruct use_enhanced.
  - destruct (get_comprehensive_statistics get_mode_name get_font_size_name
                session episode use_view 1000) as [enhanced|e] eqn:Henh.
    + eexists. split; [reflexivity|]. simpl. split; [done|].
      destruct (comprehensive_statistics_method _ _ _ _ _ Henh)
        as [(Hmeth & Hlim & _)|(Hmeth & Hlim)]; rewrite Hmeth.
      * split; [set_solver|]. split; [discriminate|].
        split; [|discriminate]. split; [by intros [? [=]]|by intros [_ []]].
      * split; [set_solver|]. split; [discriminate|].
        split; [|done]. split; [by intros [? [=]]|by intros [_ []]].
    + eexists. split; [reflexivity|]. simpl. split; [done|].
      split; [set_solver|]. split; [done|]. split; [|discriminate].
      split; [done|]. intros _. by eexists.
  - eexists. split; [reflexivity|]. simpl. split; [done|].
    split; [set_solver|]. split; [done|]. split; [|discriminate].
    split; [by intros [? [=]]|by intros [[=] _]].
Qed.

End DanmakuStatisticsProperties.

(** ** Creating episodes *)

Section EpisodeServiceProperties.
Import EpisodeService.

Context {store source episode : Type}.
Variable get_source_by_id : store -> field_value -> store * outcome (option source).
Variable get_by_source_and_episode :
  store -> field_value -> field_value -> store * outcome (option episode).
Variable create : store -> gmap string field_value -> store * outcome episode.

Lemma validate_required_fields_outcome data fields :
  (_validate_required_fields data fields = Done tt /\ Forall (present data) fields) \/
  (exists field, field ∈ fields /\ ~ present data field /\
     _validate_required_fields data fields = Raised (ValidationError field)).
Proof.
  induction fields as [|field rest IH]; simpl; [by left|].
  assert (Hbad : ~ present data field ->
            exists f, f ∈ field :: rest /\ ~ present data f /\
              @Raised unit (ValidationError field) = Raised (ValidationError f)).
  { intros Hn. exists field. split; [by left|]. done. }
  assert (Hgood : present data field ->
            (_validate_required_fields data rest = Done tt /\
             Forall (present data) (field :: rest)) \/
            (exists f, f ∈ field :: rest /\ ~ present data f /\
               _validate_required_fields data rest = Raised (ValidationError f))).
  { intros Hp. destruct IH as [[-> Hall]|(f & Hin & Hn & ->)].
    - left. split; [done|]. by constructor.
    - right. exists f. split; [by right|]. done. }
  destruct (data !! field) as [[|b|z|s|n o|o]|] eqn:Hf.
  - right. apply Hbad. intros (v & Hv & Hne & _). rewrite Hf in Hv. by simplify_eq.
  - apply Hgood. exists (FBool b). split; [done|]. split; [done|]. intros s' [=].
  - apply Hgood. exists (FInt z). split; [done|]. split; [done|]. intros s' [=].
  - destruct (blank s) eqn:Hblank.
    + right. apply Hbad. intros (v & Hv & _ & Hs). rewrite Hf in Hv.
      simplify_eq. specialize (Hs s eq_refl). congruence.
    + apply Hgood. exists (FStr s). split; [done|]. split; [done|].
      by intros s' [= <-].
  - apply Hgood. exists (FSized n o). split; [done|]. split; [done|]. intros s' [=].
  - apply Hgood. exists (FUnsized o). split; [done|]. split; [done|]. intros s' [=].
  - right. apply Hbad. intros (v & Hv & _). rewrite Hf in Hv. discriminate.
Qed.

Lemma acceptable_present data field :
  acceptable data -> field ∈ ["source_id"; "title"; "episode_index"] ->
  present data field.
Proof.
  intros (Hs & (title & Ht & Hacc) & (v & Hv & Hbad)) Hin.
  repeat (apply elem_of_cons in Hin as [->|Hin]); [..|by apply elem_of_nil in Hin].
  - done.
  - exists title. split; [done|]. split; [by intros ->|].
    intros s' ->. by destruct Hacc.
  - exists v. split; [done|]. split; [by intros ->|].
    intros s' ->. discriminate.
Qed.

Lemma blank_nonempty s : blank s = false -> (1 <= String.length s)%nat.
Proof. destruct s; [discriminate|simpl; lia]. Qed.

(** The data checks pass exactly on acceptable data; otherwise they end in
    a validation error or, for a title without a length, in the
    [TypeError] of [len]. *)
Lemma validate_episode_data_outcome (data : gmap string field_value) :
  (validate_episode_data (episode:=episode) (source:=source) data = Done None /\
   acceptable data) \/
  (~ acceptable data /\
   ((exists field, validate_episode_data (episode:=episode) (source:=source) data
                   = Raised (ValidationError field)) \/
    validate_episode_data (episode:=episode) (source:=source) data = Raised TypeError \/
    validate_episode_data (episode:=episode) (source:=source) data
      = Done (Some (validation_error "episode_index")))).
Proof.
  unfold validate_episode_data.
  destruct (validate_required_fields_outcome data ["source_id"; "title"; "episode_index"])
    as [[-> Hall]|(f & Hin & Hn & ->)].
  2:{ right. split; [|left; by exists f].
      intros Hacc. apply Hn. by apply acceptable_present. }
  apply Forall_cons in Hall as [Hsrc Hall]. apply Forall_cons in Hall as [Htitle Hall].
  apply Forall_cons in Hall as [Hidx _].
  destruct Htitle as (vt & Hvt & Hvt_ne & Hvt_blank).
  destruct Hidx as (vi & Hvi & Hvi_ne & _).
  simpl. unfold item. rewrite Hvt. simpl.
  assert (Hno_title : ~ acceptable_title vt -> ~ acceptable data).
  { intros Hn (_ & (title & Ht & Hacc) & _). rewrite Hvt in Ht.
    injection Ht as <-. done. }
  assert (Hsized : forall n, len vt = Done n ->
            ((1 <= n <= 255)%nat <-> acceptable_title vt) ->
            (_validate_field_length vt "title" 255 1 = Done tt /\ acceptable_title vt) \/
            (~ acceptable_title vt /\
             _validate_field_length vt "title" 255 1 = Raised (ValidationError "title"))).
  { intros n Hlen Hiff. unfold _validate_field_length. rewrite Hlen. simpl.
    destruct (bool_decide_reflect (n < 1)%nat) as [Hshort|Hmin].
    { right. split; [|done]. rewrite <- Hiff. lia. }
    destruct (bool_decide_reflect (255 < n)%nat) as [Hlong|Hmax].
    { right. split; [|done]. rewrite <- Hiff. lia. }
    left. split; [done|]. apply Hiff. lia. }
  assert (Hcheck :
    (_validate_field_length vt "title" 255 1 = Done tt /\ acceptable_title vt) \/
    (~ acceptable_title vt /\
     (_validate_field_length vt "title" 255 1 = Raised (ValidationError "title") \/
      _validate_field_length vt "title" 255 1 = Raised TypeError))).
  { destruct vt as [|b|z|title|n o|o].
    - done.
    - right. split; [by intros []|by right].
    - right. split; [by intros []|by right].
    - specialize (Hvt_blank title eq_refl).
      destruct (Hsized (String.length title) eq_refl) as [?|[? ?]];
        [simpl; tauto|by left|right; split; [done|by left]].
    - destruct (Hsized n eq_refl) as [?|[? ?]];
        [simpl; tauto|by left|right; split; [done|by left]].
    - right. split; [by intros []|by right]. }
  destruct Hcheck as [[-> Hacc]|[Hn [-> | ->]]]; simpl.
  2:{ right. split; [by apply Hno_title|]. left. by eexists. }
  2:{ right. split; [by apply Hno_title|]. right. by left. }
  rewrite Hvi. simpl.
  destruct (bad_episode_index vi) eqn:Hbad.
  - right. split; [|by right; right].
    intros (_ & _ & (v & Hv & Hb)). rewrite Hvi in Hv. injection Hv as <-.
    congruence.
  - left. split; [done|]. split; [done|]. split.
    + by exists vt.
    + by exists vi.
Qed.

(** [create_episode_with_validation] reaches the repositories only with
    acceptable data: on other data the state is left as it was and the
    result is an error, a validation error or, for a title without a
    length, an internal error; a success implies acceptable data. *)
Theorem create_episode_checks_data (st : store) (episode_data : gmap string field_value)
    (check_duplicates : bool) :
  (~ acceptable episode_data ->
   exists error_code field,
     create_episode_with_validation get_source_by_id get_by_source_and_episode create
       st episode_data check_duplicates = (st, error_result error_code field) /\
     error_code ∈ ["VALIDATION_ERROR"; "INTERNAL_ERROR"]) /\
  (forall st' data,
     create_episode_with_validation get_source_by_id get_by_source_and_episode create
       st episode_data check_duplicates = (st', success_result data) ->
     acceptable episode_data).
Proof.
  assert (Hbad : ~ acceptable episode_data ->
     exists error_code field,
       create_episode_with_validation get_source_by_id get_by_source_and_episode create
         st episode_data check_duplicates = (st, error_result error_code field) /\
       error_code ∈ ["VALIDATION_ERROR"; "INTERNAL_ERROR"]).
  { intros Hn. unfold create_episode_with_validation.
    destruct (validate_episode_data_outcome episode_data)
      as [[_ Hacc]|(_ & [[f ->]|[->| ->]])]; [done|..].
    - exists "VALIDATION_ERROR", (Some f). split; [done|]. set_solver.
    - exists "INTERNAL_ERROR", None. split; [done|]. set_solver.
    - exists "VALIDATION_ERROR", (Some "episode_index"). split; [done|]. set_solver. }
  split; [done|].
  intros st' data Hres.
  destruct (validate_episode_data_outcome episode_data) as [[_ Hacc]|[Hn _]]; [done|].
  destruct (Hbad Hn) as (code & field & Heq & _). congruence.
Qed.


Variable commit : store -> store * option exn.
Variable rollback : store -> store * option exn.


End EpisodeServiceProperties.

(** ** Service metrics *)

Section ServiceMetricsProperties.
Import ServiceMetrics.

Lemma sum_values_incr (counts : gmap string Z) k :
  sum_values (<[k := default 0 (counts !! k) + 1]> counts) = sum_values counts + 1.
Proof.
  unfold sum_values. destruct (counts !! k) as [v|] eqn:Hk; simpl.
  - rewrite <- insert_delete_eq.
    rewrite map_fold_insert_L; [|intros; lia|apply lookup_delete_eq].
    rewrite (map_fold_delete_L _ _ k v counts); [lia|intros; lia|done].
  - rewrite map_fold_insert_L; [lia|intros; lia|done].
Qed.

Lemma after_calls_snoc calls c :
  after_calls (calls ++ [c]) = record_operation (after_calls calls) c.1.1 c.1.2 c.2.
Proof. unfold after_calls. by rewrite fold_left_app. Qed.

Lemma calls_of_snoc operation calls c :
  calls_of operation (calls ++ [c]) =
  (calls_of operation calls ++ if decide (c.1.1 = operation) then [c] else [])%list.
Proof.
  unfold calls_of. by rewrite filter_app.
Qed.

Lemma failed_snoc calls c :
  failed (calls ++ [c]) = (failed calls ++ if c.2 then [] else [c])%list.
Proof.
  unfold failed. rewrite filter_app. f_equal. by destruct c as [[op d] []].
Qed.

(** What the three dictionaries hold after a sequence of calls. *)
Lemma after_calls_state calls :
  sum_values (operation_counts (after_calls calls)) = Z.of_nat (length calls) /\
  sum_values (error_counts (after_calls calls)) = Z.of_nat (length (failed calls)) /\
  forall operation,
    operation_counts (after_calls calls) !! operation =
      (if decide (calls_of operation calls = []) then None
       else Some (Z.of_nat (length (calls_of operation calls)))) /\
    default 0 (error_counts (after_calls calls) !! operation) =
      Z.of_nat (length (failed (calls_of operation calls))) /\
    default [] (response_times (after_calls calls) !! operation) =
      (fun c : call => c.1.2) <$> calls_of operation calls.
Proof.
  induction calls as [|[[op d] ok] calls IH] using rev_ind.
  { repeat split; try done. }
  destruct IH as (Hops & Herrs & Hper).
  rewrite after_calls_snoc. simpl. split; [|split].
  - rewrite sum_values_incr, Hops, length_app. simpl. lia.
  - rewrite failed_snoc, length_app. simpl. destruct ok; simpl.
    + rewrite Herrs. lia.
    + rewrite sum_values_incr, Herrs. lia.
  - intros operation. destruct (Hper operation) as (Hc & He & Ht).
    rewrite calls_of_snoc. simpl.
    destruct (decide (op = operation)) as [->|Hne].
    + rewrite !lookup_insert_eq. split; [|split].
      * rewrite decide_False by (by intros ?%app_eq_nil_inv_r || by destruct (calls_of _ _)).
        rewrite Hc, length_app. simpl.
        destruct (decide (calls_of operation calls = [])) as [->|_]; simpl;
          f_equal; lia.
      * rewrite failed_snoc, length_app. simpl. destruct ok; simpl.
        -- rewrite He. lia.
        -- rewrite lookup_insert_eq. simpl. rewrite He. lia.
      * simpl. by rewrite Ht, fmap_app.
    + rewrite app_nil_r. rewrite !lookup_insert_ne by done.
      split; [done|]. split; [|done].
      destruct ok; [done|]. by rewrite lookup_insert_ne.
Qed.

Lemma max_Q_bounds x rest y :
  y ∈ x :: rest -> (y <= max_Q (x :: rest))%Q.
Proof.
  simpl. revert x y. induction rest as [|z rest IH]; intros x y Hy; simpl.
  { apply list_elem_of_singleton in Hy as ->. apply Qle_refl. }
  assert (Hstep : forall a, (a <= x)%Q \/ (a <= z)%Q ->
            (a <= if Qle_bool z x then x else z)%Q).
  { intros a [Ha|Ha]; destruct (Qle_bool z x) eqn:Hzx; try done.
    - apply Qle_trans with x; [done|]. apply Qlt_le_weak, Qnot_le_lt.
      intros Hle. apply Qle_bool_iff in Hle. congruence.
    - apply Qle_trans with z; [done|]. by apply Qle_bool_iff. }
  apply elem_of_cons in Hy as [->|Hy].
  - apply Qle_trans with (if Qle_bool z x then x else z).
    + apply Hstep. left. apply Qle_refl.
    + apply IH. by left.
  - apply elem_of_cons in Hy as [->|Hy].
    + apply Qle_trans with (if Qle_bool z x then x else z).
      * apply Hstep. right. apply Qle_refl.
      * apply IH. by left.
    + apply IH. by right.
Qed.

Lemma min_Q_bounds x rest y :
  y ∈ x :: rest -> (min_Q (x :: rest) <= y)%Q.
Proof.
  simpl. revert x y. induction rest as [|z rest IH]; intros x y Hy; simpl.
  { apply list_elem_of_singleton in Hy as ->. apply Qle_refl. }
  assert (Hstep : forall a, (x <= a)%Q \/ (z <= a)%Q ->
            ((if Qle_bool x z then x else z) <= a)%Q).
  { intros a [Ha|Ha]; destruct (Qle_bool x z) eqn:Hxz; try done.
    - apply Qle_trans with x; [|done]. apply Qlt_le_weak, Qnot_le_lt.
      intros Hle. apply Qle_bool_iff in Hle. congruence.
    - apply Qle_trans with z; [|done]. by apply Qle_bool_iff. }
  apply elem_of_cons in Hy as [->|Hy].
  - apply Qle_trans with (if Qle_bool x z then x else z).
    + apply IH. by left.
    + apply Hstep. left. apply Qle_refl.
  - apply elem_of_cons in Hy as [->|Hy].
    + apply Qle_trans with (if Qle_bool x z then x else z).
      * apply IH. by left.
      * apply Hstep. right. apply Qle_refl.
    + apply IH. by right.
Qed.

(** The figures of [get_metrics] after any sequence of
    [record_operation] calls on a fresh object: the totals count the calls
    and the failed calls; each operation's entry counts its calls and its
    failed calls, its success rate lies between 0 and 100, and every
    duration recorded for it lies between its minimum and its maximum. *)
Theorem get_metrics_after_calls (calls : list call) :
  (get_metrics (after_calls calls)).1.1 = Z.of_nat (length calls) /\
  (get_metrics (after_calls calls)).1.2 = Z.of_nat (length (failed calls)) /\
  (get_metrics (after_calls calls)).1.2 <= (get_metrics (after_calls calls)).1.1 /\
  (forall operation,
    is_Some ((get_metrics (after_calls calls)).2 !! operation) <->
    exists c, c ∈ calls /\ c.1.1 = operation) /\
  forall operation entry,
    (get_metrics (after_calls calls)).2 !! operation = Some entry ->
    count entry = Z.of_nat (length (calls_of operation calls)) /\
    errors entry = Z.of_nat (length (failed (calls_of operation calls))) /\
    0 <= errors entry <= count entry /\ 1 <= count entry /\
    (0 <= success_rate entry <= 100)%Q /\
    forall c, c ∈ calls -> c.1.1 = operation ->
      (min_response_time entry <= c.1.2 <= max_response_time entry)%Q.
Proof.
  destruct (after_calls_state calls) as (Hops & Herrs & Hper).
  unfold get_metrics. simpl. split; [done|]. split; [done|]. split.
  { rewrite Hops, Herrs. apply Nat2Z.inj_le, length_filter. }
  split.
  { intros operation. rewrite map_lookup_imap.
    destruct (Hper operation) as (Hc & _). rewrite Hc.
    destruct (decide (calls_of operation calls = [])) as [Hnil|Hne]; simpl.
    - split; [by intros [? ?]|]. intros (c & Hin & Hop). exfalso.
      assert (Hc' : c ∈ calls_of operation calls) by (by apply list_elem_of_filter).
      rewrite Hnil in Hc'. by apply not_elem_of_nil in Hc'.
    - split; [|by eexists]. intros _.
      destruct (calls_of operation calls) as [|c rest] eqn:Hmine; [done|].
      assert (Hc' : c ∈ calls_of operation calls) by (rewrite Hmine; by left).
      apply list_elem_of_filter in Hc' as [? ?]. by exists c. }
  intros operation entry. rewrite map_lookup_imap.
  destruct (Hper operation) as (Hc & He & Ht). rewrite Hc.
  destruct (decide (calls_of operation calls = [])) as [|Hne]; [discriminate|].
  simpl. intros [= <-]. unfold operation_entry. simpl. rewrite He, Ht.
  assert (Hmem : forall c, c ∈ calls -> c.1.1 = operation ->
            c ∈ calls_of operation calls).
  { intros c ? ?. by apply list_elem_of_filter. }
  set (mine := calls_of operation calls) in *.
  assert (Hpos : (1 <= length mine)%nat) by (destruct mine; [done|simpl; lia]).
  assert (Hfail : (length (failed mine) <= length mine)%nat) by apply length_filter.
  split; [done|]. split; [done|]. split; [lia|]. split; [lia|]. split.
  - rewrite (proj2 (Z.ltb_lt 0 (Z.of_nat (length mine)))) by lia.
    assert (Hn : (0 < inject_Z (Z.of_nat (length mine)))%Q).
    { rewrite <- (Zlt_Qlt 0). lia. }
    assert (Hk : (0 <= inject_Z (Z.of_nat (length mine) - Z.of_nat (length (failed mine)))
                  <= inject_Z (Z.of_nat (length mine)))%Q).
    { split; [rewrite <- (Zle_Qle 0)|rewrite <- Zle_Qle]; lia. }
    destruct Hk as [Hk0 Hk1].
    assert (Hr : (0 <= inject_Z (Z.of_nat (length mine) - Z.of_nat (length (failed mine)))
                       / inject_Z (Z.of_nat (length mine)) <= 1)%Q).
    { split; [apply Qle_shift_div_l|apply Qle_shift_div_r]; try done; lra. }
    revert Hr.
    generalize (inject_Z (Z.of_nat (length mine) - Z.of_nat (length (failed mine)))
                / inject_Z (Z.of_nat (length mine)))%Q.
    intros r [Hr0 Hr1]. split; lra.
  - intros c Hin Hop. specialize (Hmem c Hin Hop).
    assert (Hd : c.1.2 ∈ (fun c : call => c.1.2) <$> mine).
    { apply list_elem_of_fmap. by exists c. }
    destruct ((fun c : call => c.1.2) <$> mine) as [|x xs] eqn:Htimes.
    { by apply not_elem_of_nil in Hd. }
    split; [by apply min_Q_bounds|by apply max_Q_bounds].
Qed.

End ServiceMetricsProperties.

(** ** Deleting the duplicates *)

Section CleanupProperties.
Import DanmakuService Cleanup.

Variable similarity_threshold : Q.

Abbreviation dup' a := (fun c => is_duplicate similarity_threshold a c = true).
Abbreviation nodup' a := (fun c => is_duplicate similarity_threshold a c <> true).

Lemma kept_fuel_enough fuel comments :
  (length comments <= fuel)%nat ->
  kept_fuel similarity_threshold fuel comments = kept similarity_threshold comments.
Proof.
  unfold kept. revert fuel.
  induction comments as [comments IH] using (induction_ltof1 _ length).
  unfold ltof in IH. intros fuel Hfuel.
  destruct comments as [|anchor later]; [by destruct fuel|].
  destruct fuel as [|fuel]; [simpl in Hfuel; lia|]. simpl in *.
  pose proof (length_filter (nodup' anchor) later) as Hlen.
  rewrite (IH (filter (nodup' anchor) later)) by lia.
  by rewrite (IH (filter (nodup' anchor) later) ltac:(lia) (length later)) by lia.
Qed.

Lemma kept_cons anchor later :
  kept similarity_threshold (anchor :: later) =
  anchor :: kept similarity_threshold (filter (nodup' anchor) later).
Proof.
  unfold kept at 1. simpl. f_equal. apply kept_fuel_enough, length_filter.
Qed.

Lemma members_of_greedy_cons anchor later :
  members_of (greedy_groups similarity_threshold (anchor :: later)) =
  (filter (dup' anchor) later ++
   members_of (greedy_groups similarity_threshold (filter (nodup' anchor) later)))%list.
Proof.
  rewrite greedy_groups_cons. unfold members_of.
  by destruct (filter (dup' anchor) later).
Qed.

(** Strong induction on the list of unprocessed comments, following the
    greedy grouping. *)
Lemma greedy_ind (P : list Comment -> Prop) :
  P [] ->
  (forall anchor later, P (filter (nodup' anchor) later) -> P (anchor :: later)) ->
  forall comments, P comments.
Proof.
  intros Hnil Hcons comments.
  induction comments as [comments IH] using (induction_ltof1 _ length).
  unfold ltof in IH. destruct comments as [|anchor later]; [done|].
  apply Hcons, IH. simpl. pose proof (length_filter (nodup' anchor) later). lia.
Qed.

Lemma kept_sublist comments : kept similarity_threshold comments `sublist_of` comments.
Proof.
  induction comments as [|anchor later IH] using greedy_ind; [done|].
  rewrite kept_cons. apply sublist_skip. etrans; [exact IH|]. apply sublist_filter.
Qed.

(** The kept comments and the members of the groups are the input, up to
    order. *)
Lemma kept_members_Permutation comments :
  (kept similarity_threshold comments ++
   members_of (greedy_groups similarity_threshold comments))%list ≡ₚ comments.
Proof.
  induction comments as [|anchor later IH] using greedy_ind; [done|].
  rewrite kept_cons, members_of_greedy_cons. simpl. constructor.
  etrans; [apply Permutation_app_swap_app|].
  etrans; [apply Permutation_app_head, IH|].
  apply filter_app_complement.
Qed.

(** Among the kept comments no group forms. *)
Lemma greedy_groups_kept comments :
  greedy_groups similarity_threshold (kept similarity_threshold comments) = [].
Proof.
  induction comments as [|anchor later IH] using greedy_ind; [done|].
  rewrite kept_cons, greedy_groups_cons.
  pose proof (kept_sublist (filter (nodup' anchor) later)) as Hsub.
  assert (Hall : Forall (nodup' anchor)
                   (kept similarity_threshold (filter (nodup' anchor) later))).
  { apply Forall_forall. intros c Hc.
    eapply elem_of_sublist in Hc; [|exact Hsub].
    by apply list_elem_of_filter in Hc as [? _]. }
  assert (Hnone : filter (dup' anchor)
                    (kept similarity_threshold (filter (nodup' anchor) later)) = []).
  { clear -Hall. induction Hall as [|c l Hc _ IHl]; [done|].
    by rewrite filter_cons_False. }
  assert (Hsame : filter (nodup' anchor)
                    (kept similarity_threshold (filter (nodup' anchor) later)) =
                  kept similarity_threshold (filter (nodup' anchor) later)).
  { clear -Hall. induction Hall as [|c l Hc _ IHl]; [done|].
    rewrite filter_cons_True by done. by rewrite IHl. }
  by rewrite Hnone, Hsame.
Qed.

Lemma filter_ext_elem_of {A} (P1 P2 : A -> Prop)
    `{!forall x, Decision (P1 x), !forall x, Decision (P2 x)} (l : list A) :
  (forall x, x ∈ l -> P1 x <-> P2 x) -> filter P1 l = filter P2 l.
Proof.
  induction l as [|x l IH]; intros Hext; [done|].
  rewrite !filter_cons.
  rewrite IH by (intros y Hy; apply Hext; by right).
  destruct (decide (P1 x)) as [H1|H1], (decide (P2 x)) as [H2|H2]; try done;
    exfalso; apply (Hext x) in H1 || apply (Hext x) in H2; done || by left.
Qed.

Lemma members_of_greedy_submseteq comments :
  members_of (greedy_groups similarity_threshold comments) ⊆+ comments.
Proof.
  rewrite <- (kept_members_Permutation comments) at 2.
  apply submseteq_inserts_l. done.
Qed.

(** With distinct identifiers, the kept comments are the input without
    the rows whose identifier is that of a group member. *)
Lemma kept_filter comments :
  NoDup (id <$> comments) ->
  kept similarity_threshold comments =
  filter (fun c => id c ∉ id <$> members_of (greedy_groups similarity_threshold comments))
    comments.
Proof.
  induction comments as [|anchor later IH] using greedy_ind; [done|].
  intros Hnd. rewrite fmap_cons in Hnd. apply NoDup_cons in Hnd as [Hanchor Hnd].
  rewrite kept_cons, members_of_greedy_cons.
  set (O := filter (nodup' anchor) later) in *.
  set (R := members_of (greedy_groups similarity_threshold O)) in *.
  assert (HR : forall c, c ∈ R -> c ∈ later).
  { intros c Hc. eapply elem_of_submseteq in Hc;
      [|apply members_of_greedy_submseteq].
    by apply list_elem_of_filter in Hc as [_ ?]. }
  rewrite filter_cons_True.
  2:{ intros Hin. apply list_elem_of_fmap in Hin as (c & Heq & Hc).
      apply Hanchor. rewrite Heq. apply list_elem_of_fmap_2.
      apply elem_of_app in Hc as [Hc|Hc]; [|by apply HR].
      by apply list_elem_of_filter in Hc as [_ ?]. }
  f_equal. rewrite IH.
  2:{ apply (sublist_NoDup _ (id <$> later)); [exact Hnd|].
      apply fmap_sublist. apply sublist_filter. }
  unfold O. rewrite list_filter_filter.
  apply filter_ext_elem_of. intros c Hc. rewrite fmap_app, elem_of_app. split.
  - intros [HcR Hno] [HcM|HcR']; [|done].
    apply list_elem_of_fmap in HcM as (c' & Heq & Hc').
    apply list_elem_of_filter in Hc' as [Hdup Hc'].
    apply Hno. by rewrite (fmap_injective_on id later c c' Hnd Hc Hc' Heq).
  - intros Hnot. split; [tauto|].
    intros Hdup. apply Hnot. left. apply list_elem_of_fmap_2.
    by apply list_elem_of_filter.
Qed.

(** The deletion loops remove the rows that carry a member's identifier
    and count one per member. *)
Lemma delete_members_spec members rows n :
  delete_members members (rows, n) =
  (filter (fun c => id c ∉ id <$> members) rows, (n + length members)%nat).
Proof.
  revert rows n. induction members as [|d rest IH]; intros rows n; simpl.
  { f_equal; [|lia]. symmetry. clear. induction rows as [|c rows IH]; [done|].
    rewrite filter_cons_True by set_solver. by rewrite IH. }
  rewrite IH. f_equal; [|lia]. unfold delete. rewrite list_filter_filter.
  apply list_filter_iff. intros c. rewrite elem_of_cons. tauto.
Qed.

Lemma delete_groups_spec duplicates rows n :
  delete_groups duplicates (rows, n) =
  (filter (fun c => id c ∉ id <$> members_of duplicates) rows,
   (n + length (members_of duplicates))%nat).
Proof.
  revert rows n. induction duplicates as [|group rest IH]; intros rows n; simpl.
  { change (members_of []) with (@nil Comment). simpl.
    f_equal; [|lia]. symmetry. clear.
    induction rows as [|c rows IH]; [done|].
    rewrite filter_cons_True by set_solver. by rewrite IH. }
  rewrite delete_members_spec, IH.
  change (members_of (group :: rest)) with (tail group ++ members_of rest)%list.
  rewrite length_app. f_equal; [|lia]. rewrite list_filter_filter.
  apply list_filter_iff. intros c. rewrite fmap_app, elem_of_app. tauto.
Qed.

Lemma cleanup_kept all_danmaku :
  NoDup (id <$> all_danmaku) ->
  cleanup similarity_threshold all_danmaku =
  (kept similarity_threshold all_danmaku,
   length (members_of (greedy_groups similarity_threshold all_danmaku))).
Proof.
  intros Hnd. unfold cleanup.
  rewrite find_duplicates_greedy_groups, delete_groups_spec.
  by rewrite <- kept_filter.
Qed.

Lemma removed_ids_members (duplicates : list (list Comment)) :
  removed_ids duplicates = id <$> members_of duplicates.
Proof.
  induction duplicates as [|g gs IH]; [done|].
  change (removed_ids (g :: gs)) with ((id <$> tail g) ++ removed_ids gs)%list.
  change (members_of (g :: gs)) with (tail g ++ members_of gs)%list.
  by rewrite fmap_app, IH.
Qed.

(** After the deletes a second search finds nothing: among the comments
    left, in their order, no group forms. *)
Theorem cleanup_leaves_no_duplicates (all_danmaku : list Comment) :
  NoDup (id <$> all_danmaku) ->
  find_duplicates similarity_threshold (cleanup similarity_threshold all_danmaku).1 = [].
Proof.
  intros Hnd. rewrite cleanup_kept by done. simpl.
  rewrite find_duplicates_greedy_groups. apply greedy_groups_kept.
Qed.

(** The counts that [cleanup_duplicate_danmaku] reports are exact when the
    identifiers are distinct: no identifier is deleted twice, every
    anchor is still there, the rows left are rows of the input in their
    order, and rows left plus [removed_count] make up the input. *)
Theorem cleanup_counts_exact (all_danmaku : list Comment) :
  NoDup (id <$> all_danmaku) ->
  let duplicates := find_duplicates similarity_threshold all_danmaku in
  let remaining := (cleanup similarity_threshold all_danmaku).1 in
  let removed_count := (cleanup similarity_threshold all_danmaku).2 in
  NoDup (removed_ids duplicates) /\
  removed_count = length (removed_ids duplicates) /\
  (length remaining + removed_count = length all_danmaku)%nat /\
  remaining `sublist_of` all_danmaku /\
  (forall group anchor, group ∈ duplicates -> head group = Some anchor ->
     anchor ∈ remaining /\ id anchor ∉ removed_ids duplicates).
Proof.
  intros Hnd duplicates remaining removed_count.
  unfold remaining, removed_count, duplicates. rewrite cleanup_kept by done.
  rewrite find_duplicates_greedy_groups. simpl.
  set (groups := greedy_groups similarity_threshold all_danmaku).
  pose proof (removed_ids_members groups) as Hids.
  pose proof (kept_members_Permutation all_danmaku) as Hperm. fold groups in Hperm.
  assert (Hall : NoDup (id <$> (kept similarity_threshold all_danmaku ++
                                  members_of groups)%list)).
  { by rewrite Hperm. }
  rewrite fmap_app in Hall. apply NoDup_app in Hall as (_ & Hdisj & Hmem).
  rewrite Hids. split; [done|]. split; [by rewrite length_fmap|].
  split; [apply Permutation_length in Hperm; by rewrite length_app in Hperm|].
  split; [apply kept_sublist|].
  intros group anchor Hg Hhead.
  assert (Hkept : anchor ∈ kept similarity_threshold all_danmaku).
  { clear -Hg Hhead. unfold groups in Hg. revert group anchor Hg Hhead.
    induction all_danmaku as [|a later IH] using greedy_ind;
      intros group anchor Hg Hhead; [by apply elem_of_nil in Hg|].
    rewrite kept_cons. rewrite greedy_groups_cons in Hg.
    destruct (filter (dup' a) later) as [|c members].
    - right. by eapply IH.
    - apply elem_of_cons in Hg as [->|Hg].
      + simpl in Hhead. injection Hhead as <-. by left.
      + right. by eapply IH. }
  split; [done|]. apply Hdisj. by apply list_elem_of_fmap_2.
Qed.

End CleanupProperties.

(** ** Concrete decodings *)

Section ParseExamples.
Import Builtins DanmakuParamsParser.

(** The packed string used by the repository's own parser test. *)
Example parse_test_string :
  parse_params_string "23.5,1,25,16777215,1609459200,0,test_id,user_hash_123" =
  Return (params_dict (FDec false 235 (-1)) 1 25 16777215 1609459200 0
            "test_id" "user_hash_123").
Proof. vm_compute. reflexivity. Qed.

Lemma parse_params_string_complete_iff_witness :
  parse_params_string "23.5,1,25,16777215,1609459200,0,test_id,user_hash_123,x,y" =
  Return (params_dict (FDec false 235 (-1)) 1 25 16777215 1609459200 0
            "test_id" "user_hash_123").
Proof.
  destruct (parse_params_string_complete_iff
              "23.5,1,25,16777215,1609459200,0,test_id,user_hash_123")
    as (d & Hd & _ & _ & Hext).
  rewrite (Hext "23.5,1,25,16777215,1609459200,0,test_id,user_hash_123,x,y").
  - rewrite <- Hd. vm_compute. reflexivity.
  - vm_compute. lia.
  - vm_compute. reflexivity.
Defined.

(** Seven fields with valid numeric fields: the claim of C3 expects a
    record with an empty [user_hash]; the code returns the empty
    dictionary. *)
Lemma seven_fields_rejected :
  length (split "23.5,1,25,16777215,1609459200,0,test_id") = 7%nat /\
  numeric_fields_parse (split "23.5,1,25,16777215,1609459200,0,test_id") /\
  parse_params_string "23.5,1,25,16777215,1609459200,0,test_id" = Return ∅ /\
  ~ complete_record ∅.
Proof.
  split; [reflexivity|]. split.
  - repeat split; eexists; (split; [reflexivity|]); vm_compute; exact I.
  - split; [vm_compute; reflexivity|].
    intros H. by apply complete_record_nonempty in H.
Qed.

Lemma user_hash_field_mandatory_witness :
  parse_params_string "23.5,1,25,16777215,1609459200,0,test_id" = Return ∅.
Proof.
  apply (proj1 (user_hash_field_mandatory "23.5,1,25,16777215,1609459200,0,test_id")).
  reflexivity.
Defined.

(** Colours outside [0, 0xFFFFFF] are decoded, against the claim of C4:
    one above the range, one negative. *)
Lemma color_out_of_range_accepted :
  parse_params_string "0,1,25,16777216,0,0,a,b" =
    Return (params_dict (FDec false 0 0) 1 25 16777216 0 0 "a" "b") /\
  parse_params_string "0,1,25,-1,0,0,a,b" =
    Return (params_dict (FDec false 0 0) 1 25 (-1) 0 0 "a" "b") /\
  ~ (0 <= 16777216 <= 16777215)%Z /\ ~ (0 <= -1 <= 16777215)%Z.
Proof.
  split; [vm_compute; reflexivity|]. split; [vm_compute; reflexivity|]. lia.
Qed.

Lemma color_stored_unchecked_witness :
  exists field color,
    split "0,1,25,16777216,0,0,a,b" !! 3%nat = Some field /\
    py_int field = Return color /\
    params_dict (FDec false 0 0) 1 25 16777216 0 0 "a" "b" !! "color"
      = Some (VInt color).
Proof.
  apply (color_stored_unchecked "0,1,25,16777216,0,0,a,b").
  - vm_compute. reflexivity.
  - apply params_dict_nonempty.
Defined.

End ParseExamples.

(** ** Concrete runs *)

Section Examples.
Import DanmakuParamsParser EnhancedCommentStatistics DanmakuService Samples.
Import EpisodeService.

(** With every statement failing, the view path raises and so does the
    call, against the claim of C2: the Python path's own query is not
    guarded. *)
Lemma unreachable_session_raises :
  raised (view_color_rows unreachable_session 1) /\
  get_comprehensive_statistics (fun _ => "mode") (fun _ => "size")
    unreachable_session 1 true 1000
  = Raise (DatabaseError "connection refused").
Proof. split; [exact I|reflexivity]. Qed.

Lemma view_failure_falls_back_witness :
  exists stats,
    get_comprehensive_statistics (fun _ => "mode") (fun _ => "size")
      viewless_session 1 true 1000 = Return stats /\
    method stats = "python_parsing" /\
    sample_limit stats = Some 1000 /\
    tally "color" get_color_hex
      ["23.5,1,25,16777215,1609459200,0,test_id,user_hash_123"; "1,2,3"] ∅
      = Return (color_distribution stats) /\
    tally "mode" (fun _ => "mode")
      ["23.5,1,25,16777215,1609459200,0,test_id,user_hash_123"; "1,2,3"] ∅
      = Return (mode_distribution stats) /\
    tally "font_size" (fun _ => "size")
      ["23.5,1,25,16777215,1609459200,0,test_id,user_hash_123"; "1,2,3"] ∅
      = Return (font_size_distribution stats).
Proof.
  apply (proj2 (view_failure_falls_back (fun _ => "mode") (fun _ => "size")
                  viewless_session 1 1000 (or_introl I))).
  reflexivity.
Defined.

(** The malformed row of the sample is skipped, the other one counted. *)
Example viewless_color_distribution :
  color_distribution <$>
    (match get_comprehensive_statistics (fun _ => "mode") (fun _ => "size")
             viewless_session 1 true 1000 with
     | Return stats => Some stats
     | Raise _ => None
     end) = Some {["#FFFFFF" := 1]}.
Proof. vm_compute. reflexivity. Qed.

Lemma danmaku_similarity_formula_witness :
  (_string_similarity "ab" "bc" == jaccard (char_set "ab") (char_set "bc"))%Q.
Proof.
  apply (proj2 (proj2 (proj2
           (danmaku_similarity_formula (comment_at 1 0 "ab") (comment_at 2 3 "bc"))))).
  left. discriminate.
Defined.

(** Two empty texts: each string is empty, yet the content similarity is
    [1], not [0] as C7 has it for an empty string, and not the quotient of
    the two set sizes, which are both zero.  With equal times the two
    comments are grouped as duplicates. *)
Lemma empty_texts_score_one :
  m (comment_at 1 0 "") = "" /\ m (comment_at 2 0 "") = "" /\
  _string_similarity (m (comment_at 1 0 "")) (m (comment_at 2 0 "")) = 1%Q /\
  ~ (_string_similarity (m (comment_at 1 0 "")) (m (comment_at 2 0 "")) == 0)%Q /\
  size (char_set "" ∪ char_set "") = 0%nat /\
  (jaccard (char_set "") (char_set "") == 0)%Q /\
  Qred (_calculate_danmaku_similarity (comment_at 1 0 "") (comment_at 2 0 "")) = 1%Q /\
  (fmap (M:=list) id) <$>
    find_duplicates (9 # 10) [comment_at 1 0 ""; comment_at 2 0 ""] = [[1; 2]].
Proof.
  split; [reflexivity|]. split; [reflexivity|]. split; [reflexivity|].
  split; [by intros ?|]. split; [vm_compute; reflexivity|].
  split; [vm_compute; reflexivity|]. split; vm_compute; reflexivity.
Qed.

Example similarity_values :
  Qred (_string_similarity "ab" "bc") = (1 # 3)%Q /\
  Qred (_calculate_danmaku_similarity (comment_at 1 0 "ab") (comment_at 2 3 "bc"))
    = (26 # 75)%Q /\
  _string_similarity "" "" = 1%Q /\
  _string_similarity "" "a" = 0%Q.
Proof. repeat split; vm_compute; reflexivity. Qed.

(** With identical texts the content term alone reaches a threshold of
    one half: the distant third comment joins the group of the first. *)
Example same_text_groups :
  (fmap (M:=list) id) <$> find_duplicates (1 # 2) same_text = [[1; 2; 3]].
Proof. vm_compute. reflexivity. Qed.

Example two_pairs_groups :
  (fmap (M:=list) id) <$> find_duplicates (9 # 10) two_pairs = [[1; 2]; [3; 4]] /\
  removed_ids (find_duplicates (9 # 10) two_pairs) = [2; 4].
Proof. split; vm_compute; reflexivity. Qed.

Lemma duplicate_groups_disjoint_witness :
  NoDup (id <$> concat (find_duplicates (9 # 10) two_pairs)) /\
  concat (find_duplicates (9 # 10) two_pairs) ⊆+ two_pairs /\
  (forall i j group1 group2 c1 c2,
     find_duplicates (9 # 10) two_pairs !! i = Some group1 ->
     find_duplicates (9 # 10) two_pairs !! j = Some group2 -> i <> j ->
     c1 ∈ group1 -> c2 ∈ group2 -> id c1 <> id c2).
Proof.
  apply (duplicate_groups_disjoint (9 # 10) two_pairs).
  vm_compute. repeat constructor; set_solver.
Defined.

Lemma decoded_text_fields_comma_free_witness :
  comma_free "test_id" /\ comma_free "user_hash_123".
Proof.
  apply (decoded_text_fields_comma_free
           "23.5,1,25,16777215,1609459200,0,test_id,user_hash_123"
           (params_dict (FDec false 235 (-1)) 1 25 16777215 1609459200 0
              "test_id" "user_hash_123")).
  - vm_compute. reflexivity.
  - vm_compute. reflexivity.
  - vm_compute. reflexivity.
Defined.

Lemma tally_counts_decoded_rows_witness :
  total_count {["#FFFFFF" := 1]} =
    Z.of_nat (length (filter decodes
      ["23.5,1,25,16777215,1609459200,0,test_id,user_hash_123"; "1,2,3"])) /\
  total_count {["#FFFFFF" := 1]} <=
    Z.of_nat (length
      ["23.5,1,25,16777215,1609459200,0,test_id,user_hash_123"; "1,2,3"]).
Proof.
  apply (tally_counts_decoded_rows "color" get_color_hex
           ["23.5,1,25,16777215,1609459200,0,test_id,user_hash_123"; "1,2,3"]
           {["#FFFFFF" := 1]}).
  - set_solver.
  - vm_compute. reflexivity.
Defined.

Example decoded_rows_count :
  length (filter decodes
    ["23.5,1,25,16777215,1609459200,0,test_id,user_hash_123"; "1,2,3"]) = 1%nat.
Proof. vm_compute. reflexivity. Qed.

Lemma get_popular_danmaku_members_witness :
  CommentRepository.get_popular_danmaku lone_then_pair 1 50
  ≡ₚ fst <$> CommentRepository.ranked_rows lone_then_pair 1 50.
Proof.
  apply (get_popular_danmaku_members lone_then_pair 1 50).
  vm_compute. repeat constructor; set_solver.
Defined.

Lemma cleanup_leaves_no_duplicates_witness :
  find_duplicates (9 # 10) (Cleanup.cleanup (9 # 10) two_pairs).1 = [].
Proof.
  apply (cleanup_leaves_no_duplicates (9 # 10) two_pairs).
  vm_compute. repeat constructor; set_solver.
Defined.

Example two_pairs_cleanup :
  id <$> (Cleanup.cleanup (9 # 10) two_pairs).1 = [1; 3] /\
  (Cleanup.cleanup (9 # 10) two_pairs).2 = 2%nat.
Proof. split; vm_compute; reflexivity. Qed.

Lemma cleanup_counts_exact_witness :
  NoDup (removed_ids (find_duplicates (1 # 2) same_text)) /\
  (Cleanup.cleanup (1 # 2) same_text).2
    = length (removed_ids (find_duplicates (1 # 2) same_text)) /\
  (length (Cleanup.cleanup (1 # 2) same_text).1 + (Cleanup.cleanup (1 # 2) same_text).2
   = length same_text)%nat /\
  (Cleanup.cleanup (1 # 2) same_text).1 `sublist_of` same_text /\
  (forall group anchor,
     group ∈ find_duplicates (1 # 2) same_text -> head group = Some anchor ->
     anchor ∈ (Cleanup.cleanup (1 # 2) same_text).1 /\
     id anchor ∉ removed_ids (find_duplicates (1 # 2) same_text)).
Proof.
  apply (cleanup_counts_exact (1 # 2) same_text).
  vm_compute. repeat constructor; set_solver.
Defined.

Lemma color_distribution_via_view_entries_witness :
  exists dist,
    get_color_distribution_via_view view_session 1 = Return dist /\
    (forall color n, (color, n) ∈ [(16777215, 5); (255, 2)] ->
       dist !! get_color_hex color = Some n) /\
    size dist = length [(16777215, 5); (255, 2)] /\
    (forall label n, dist !! label = Some n ->
       exists color, (color, n) ∈ [(16777215, 5); (255, 2)] /\
                     label = get_color_hex color).
Proof.
  apply (color_distribution_via_view_entries view_session 1).
  - reflexivity.
  - vm_compute. repeat constructor; set_solver.
Defined.

Example view_session_colors :
  get_color_distribution_via_view view_session 1
  = Return {["#FFFFFF" := 5; "#0000FF" := 2]}.
Proof. vm_compute. reflexivity. Qed.

Lemma comment_property_outcomes_witness :
  CommentModel.param_or "color" (VInt 16777215) (packed 5 "a,b,c,d,e,f,g,h")
  = Raise ValueError.
Proof.
  apply (proj2 (proj2 (comment_property_outcomes (packed 5 "a,b,c,d,e,f,g,h")
                         "color" (VInt 16777215) ltac:(set_solver)))).
  - vm_compute. lia.
  - vm_compute. reflexivity.
Defined.

Example comment_properties :
  CommentModel.color (packed 1 "1.5,1,25,255,0,0,7,alice") = Return (VInt 255) /\
  CommentModel.user_hash (packed 1 "1.5,1,25,255,0,0,7,alice") = Return (VStr "alice") /\
  CommentModel.color (packed 4 "4.5,1") = Return (VInt 16777215) /\
  CommentModel.mode (packed 5 "a,b,c,d,e,f,g,h") = Raise ValueError.
Proof. repeat split; vm_compute; reflexivity. Qed.

Lemma get_top_commenters_counts_witness :
  exists top ranking,
    TopCommenters.get_top_commenters two_senders 1 = Return top /\
    Sorted (fun a b : pyval * Z => b.2 <= a.2) ranking /\
    NoDup ranking.*1 /\
    (forall k n, (k, n) ∈ ranking <->
       TopCommenters.truthy k = true /\ 0 < n /\
       n = Z.of_nat (TopCommenters.comments_of k two_senders)) /\
    top `prefix_of` ranking /\
    (0 <= 1 -> length top = Nat.min (Z.to_nat 1) (length ranking)) /\
    (1 < 0 -> length top = (length ranking - Z.to_nat (- 1))%nat) /\
    Sorted (fun a b : pyval * Z => b.2 <= a.2) top /\
    NoDup top.*1 /\
    (0 <= 1 -> (length top <= Z.to_nat 1)%nat) /\
    (forall k n, (k, n) ∈ top ->
       TopCommenters.truthy k = true /\ 0 < n /\
       n = Z.of_nat (TopCommenters.comments_of k two_senders)) /\
    (forall k, TopCommenters.truthy k = true ->
       (0 < TopCommenters.comments_of k two_senders)%nat -> k ∉ top.*1 ->
       (0 <= 1 -> length top = Z.to_nat 1) /\
       (forall k' n', (k', n') ∈ top ->
          Z.of_nat (TopCommenters.comments_of k two_senders) <= n')).
Proof.
  apply (proj1 (get_top_commenters_counts two_senders 1)).
  intros c Hc. unfold two_senders in Hc.
  repeat (apply elem_of_cons in Hc as [->|Hc]); [..|by apply elem_of_nil in Hc];
    vm_compute; exact I.
Defined.

Example two_senders_top :
  TopCommenters.get_top_commenters two_senders 10
    = Return [(VStr "alice", 2); (VStr "bob", 1)] /\
  TopCommenters.get_top_commenters two_senders 1 = Return [(VStr "alice", 2)] /\
  TopCommenters.get_top_commenters two_senders (-1) = Return [(VStr "alice", 2)] /\
  TopCommenters.get_top_commenters (packed 5 "a,b,c,d,e,f,g,h" :: two_senders) 10
    = Raise ValueError.
Proof. repeat split; vm_compute; reflexivity. Qed.

Lemma import_batches_accounts_witness :
  exists st' total_imported errors,
    ImportBatches.import_batches (fun n : nat => n) flush_nonzero refresh_same
      2 [1; 2; 0; 4; 5]%nat [] = (st', Return (total_imported, errors)) /\
    (total_imported + ImportBatches.failed_items errors = length [1; 2; 0; 4; 5]%nat)%nat /\
    Z.of_nat (length errors) <= ImportBatches.batches_processed 2 [1; 2; 0; 4; 5]%nat /\
    Forall (fun e => (ImportBatches.batch_start e < length [1; 2; 0; 4; 5]%nat)%nat /\
                     1 <= Z.of_nat (ImportBatches.batch_len e) <= 2) errors.
Proof.
  apply (import_batches_accounts (fun n : nat => n) flush_nonzero refresh_same
           2 [1; 2; 0; 4; 5]%nat []).
  lia.
Defined.

Example failed_batch_listed :
  ImportBatches.import_batches (fun n : nat => n) flush_nonzero refresh_same
    2 [1; 2; 0; 4; 5]%nat []
  = ([1; 2; 5]%nat,
     Return (3%nat, [ {| ImportBatches.batch_start := 2; ImportBatches.batch_len := 2;
                         ImportBatches.error := DatabaseError "constraint failed" |} ])).
Proof. vm_compute. reflexivity. Qed.

Lemma get_danmaku_statistics_returns_witness :
  exists stats,
    DanmakuStatistics.get_danmaku_statistics (fun _ => "mode") (fun _ => "size")
      Qred message two_comment_statements unreachable_session 1 true true
      = Return stats /\
    DanmakuStatistics.total_count stats = default 0 (Some 2) /\
    DanmakuStatistics.statistics_method stats
      ∈ ["database_view"; "python_parsing"; "basic_only"] /\
    (DanmakuStatistics.statistics_method stats = "basic_only" ->
       DanmakuStatistics.colors stats = ∅ /\ DanmakuStatistics.modes stats = ∅ /\
       DanmakuStatistics.font_sizes stats = ∅) /\
    (is_Some (DanmakuStatistics.enhanced_error stats) <->
       true = true /\
       raised (get_comprehensive_statistics (fun _ => "mode") (fun _ => "size")
                 unreachable_session 1 true 1000)) /\
    (DanmakuStatistics.statistics_method stats = "python_parsing" ->
       DanmakuStatistics.reported_sample_limit stats = Some 1000).
Proof.
  apply (get_danmaku_statistics_returns (fun _ => "mode") (fun _ => "size")
           Qred message two_comment_statements unreachable_session 1 true true
           (Some 2) (Some (47 # 4)) [(0, 2)]); reflexivity.
Defined.

Example unreachable_statistics :
  DanmakuStatistics.enhanced_error <$>
    (match DanmakuStatistics.get_danmaku_statistics (fun _ => "mode") (fun _ => "size")
             Qred message two_comment_statements unreachable_session 1 true true with
     | Return stats => Some stats
     | Raise _ => None
     end) = Some (Some "connection refused").
Proof. vm_compute. reflexivity. Qed.

Lemma create_episode_checks_data_witness :
  exists error_code field,
    EpisodeService.create_episode_with_validation source_one find_episode append_episode
      [] {[ "source_id" := FInt 1; "title" := FInt 7; "episode_index" := FInt 1 ]} true
    = ([], error_result error_code field) /\
    error_code ∈ ["VALIDATION_ERROR"; "INTERNAL_ERROR"].
Proof.
  apply (proj1 (create_episode_checks_data source_one find_episode append_episode
                  [] {[ "source_id" := FInt 1; "title" := FInt 7;
                        "episode_index" := FInt 1 ]} true)).
  intros (_ & (title & Htitle & Hacc) & _). vm_compute in Htitle.
  injection Htitle as <-. exact Hacc.
Defined.

Example title_not_a_string :
  (EpisodeService.create_episode_with_validation source_one find_episode append_episode
     [] {[ "source_id" := FInt 1; "title" := FInt 7; "episode_index" := FInt 1 ]} true).2
  = error_result "INTERNAL_ERROR" None.
Proof. vm_compute. reflexivity. Qed.

(** A title that is a list of one entry passes the three checks and the
    episode is created. *)
Example sized_title_accepted :
  (EpisodeService.create_episode_with_validation source_one find_episode append_episode
     [] {[ "source_id" := FInt 1; "title" := FSized 1 0; "episode_index" := FInt 1 ]}
     true).1
  = [ {[ "source_id" := FInt 1; "title" := FSized 1 0; "episode_index" := FInt 1 ]} ].
Proof. vm_compute. reflexivity. Qed.


Example three_requests_counts :
  match (EpisodeService.batch_create_episodes source_one find_episode append_episode
           no_failure no_failure [] 1 three_requests true).2 with
  | success_result result =>
      (length (created_episodes result), skipped_episodes result,
       (fun x : nat * gmap string field_value * exn => (x.1.1, x.2))
         <$> EpisodeService.errors result)
      = (1%nat, [(2%nat, FInt 1)], [(1%nat, ValidationError "title")])
  | error_result _ _ => False
  end.
Proof. vm_compute. reflexivity. Qed.

Example metrics_of_three_calls :
  let result := ServiceMetrics.get_metrics
                  (ServiceMetrics.after_calls
                     [("import", 2 # 1, true); ("export", 1 # 2, false);
                      ("import", 1 # 1, false)]) in
  result.1.1 = 3 /\ result.1.2 = 2 /\
  (ServiceMetrics.count <$> result.2 !! "import") = Some 2 /\
  (ServiceMetrics.errors <$> result.2 !! "import") = Some 1 /\
  (Qred ∘ ServiceMetrics.success_rate <$> result.2 !! "import") = Some (50 # 1)%Q /\
  (ServiceMetrics.max_response_time <$> result.2 !! "import") = Some (2 # 1)%Q /\
  (ServiceMetrics.min_response_time <$> result.2 !! "import") = Some (1 # 1)%Q.
Proof. repeat split; vm_compute; reflexivity. Qed.

End Examples.
